(** * root-cumple: the pending-reminder pass of [index.js]

    A shallow embedding of the date policy, the header map, the preview
    handler and the send handler of [src/index.js] (and of the older
    [parseDDMMYY] kept in [src/unnamed/part_000]), with the properties of
    the specification stated and settled against it; then of the column
    letters and the cell range of [updateCell], of the session that the
    "connection.update" events drive, and of the [/status] and
    [/send_test] routes, with what the code shows of them.

    Conventions of the model.
    - Text is a [string] of 8-bit code units, read as U+0000..U+00FF: on
      this range [trim] and [toLowerCase] of the engine are character-wise
      and are defined here exactly.  The outgoing message, which carries
      an emoji, is a list of UTF-16 code units.
    - A JavaScript number that the date code handles is an integer; [None]
      stands for NaN.
    - A row or column number is an integer up to 2^53 - 1, the range in
      which the engine's arithmetic on doubles is exact and [String] prints
      every digit; what is stated of such numbers is stated inside it.
    - A Date is its time value in milliseconds on the local time line
      (no zone offset, no daylight-saving jumps); [None] is Invalid Date.
    - [await] points are sequential and the pauses between calls are left
      out; the channel and the store answer each call through the [World]
      the request runs in, and every call that reaches them is logged. *)

From Stdlib Require Import ZArith Lia Ascii Sorted.
From Equations Require Import Equations.
From stdpp Require Import gmap strings list.

Local Open Scope Z_scope.

(** ** Engine strings *)

Module Js.

Definition code (c : ascii) : Z := Z.of_N (N_of_ascii c).

Definition chr (n : Z) : ascii := ascii_of_N (Z.to_N n).

(** WhiteSpace and LineTerminator below U+0100:
    TAB, LF, VT, FF, CR, SP and NBSP. *)
Definition is_space (c : ascii) : bool :=
  let n := code c in
  ((9 <=? n) && (n <=? 13)) || (n =? 32) || (n =? 160).

Definition is_digit (c : ascii) : bool :=
  let n := code c in (48 <=? n) && (n <=? 57).

Definition digit_val (c : ascii) : Z := code c - 48.

Fixpoint trimStart (s : string) : string :=
  match s with
  | EmptyString => EmptyString
  | String c s' => if is_space c then trimStart s' else s
  end.

Fixpoint trimEnd (s : string) : string :=
  match s with
  | EmptyString => EmptyString
  | String c s' =>
      match trimEnd s' with
      | EmptyString => if is_space c then EmptyString else String c EmptyString
      | t => String c t
      end
  end.

Definition trim (s : string) : string := trimEnd (trimStart s).

(** Lower-casing below U+0100: A..Z and the capitals U+00C0..U+00DE
    (the multiplication sign U+00D7 apart) move up by 32. *)
Definition lower_char (c : ascii) : ascii :=
  let n := code c in
  if ((65 <=? n) && (n <=? 90))
     || ((192 <=? n) && (n <=? 222) && negb (n =? 215))
  then chr (n + 32) else c.

Fixpoint toLowerCase (s : string) : string :=
  match s with
  | EmptyString => EmptyString
  | String c s' => String (lower_char c) (toLowerCase s')
  end.

(** [s.split(sep)] for a one-character separator: never empty. *)
Fixpoint split (sep : ascii) (s : string) : list string :=
  match s with
  | EmptyString => [EmptyString]
  | String c s' =>
      if Ascii.eqb c sep then EmptyString :: split sep s'
      else match split sep s' with
           | h :: t => String c h :: t
           | [] => [String c EmptyString]
           end
  end.

(** Truthiness of a string: only the empty one is falsy. *)
Definition truthy (s : string) : bool :=
  match s with EmptyString => false | _ => true end.

(** The digits read by [parseInt(_, 10)] after the sign. *)
Fixpoint read_digits (acc : Z) (s : string) : Z :=
  match s with
  | String c s' => if is_digit c then read_digits (10 * acc + digit_val c) s' else acc
  | EmptyString => acc
  end.

Definition starts_with_digit (s : string) : bool :=
  match s with String c _ => is_digit c | EmptyString => false end.

(** [parseInt(s, 10)]: leading white space, an optional sign, the longest
    run of decimal digits; NaN when there is no digit. *)
Definition parseInt (s : string) : option Z :=
  let t := trimStart s in
  let '(neg, r) :=
    match t with
    | String c r =>
        if Ascii.eqb c "-" then (true, r)
        else if Ascii.eqb c "+" then (false, r)
        else (false, t)
    | EmptyString => (false, t)
    end in
  if starts_with_digit r
  then Some (if neg then - read_digits 0 r else read_digits 0 r)
  else None.

(** Decimal digits of a natural number, most significant first. *)
Fixpoint digits_fuel (fuel : nat) (n : Z) (acc : string) : string :=
  match fuel with
  | O => acc
  | S fuel' =>
      let acc' := String (chr (48 + n mod 10)) acc in
      if n <? 10 then acc' else digits_fuel fuel' (n / 10) acc'
  end.

Definition digits (n : Z) : string :=
  digits_fuel (S (Z.to_nat (Z.log2 n))) n EmptyString.

(** [String(n)] for an integer, and "NaN".  The digits are those of the
    engine while the number is below 2^53; a larger one is rounded there,
    and neither print is four digits long. *)
Definition numToString (n : option Z) : string :=
  match n with
  | None => "NaN"
  | Some z => if z <? 0 then String "-" (digits (- z)) else digits z
  end.

(** [s.padStart(w, "0")] *)
Definition padStart0 (w : nat) (s : string) : string :=
  String.concat "" (replicate (w - String.length s) "0") +:+ s.

(** [a || b] on a cell that may be undefined. *)
Definition or_else (a : option string) (b : string) : string :=
  match a with
  | Some s => if truthy s then s else b
  | None => b
  end.

End Js.

(** ** Dates: the engine's Date on the local time line *)

Definition msPerDay : Z := 86400000.

(** Day number of the first day of month [m] (1..12) of year [y], plus
    [d - 1] days; day 0 is 1970-01-01.  The month is not checked against
    its length: day 31 of February is 2 March, as [MakeDay] has it. *)
Definition days_from_civil (y m d : Z) : Z :=
  let y' := if m <=? 2 then y - 1 else y in
  let era := y' / 400 in
  let yoe := y' - era * 400 in
  let mp := if 2 <? m then m - 3 else m + 9 in
  let doy := (153 * mp + 2) / 5 + d - 1 in
  let doe := yoe * 365 + yoe / 4 - yoe / 100 + doy in
  era * 146097 + doe - 719468.

(** Year, month (1..12) and day of the month of a day number. *)
Definition civil_from_days (n : Z) : Z * Z * Z :=
  let z := n + 719468 in
  let era := z / 146097 in
  let doe := z - era * 146097 in
  let yoe := (doe - doe / 1460 + doe / 36524 - doe / 146096) / 365 in
  let doy := doe - (365 * yoe + yoe / 4 - yoe / 100) in
  let mp := (5 * doy + 2) / 153 in
  let d := doy - (153 * mp + 2) / 5 + 1 in
  let m := if mp <? 10 then mp + 3 else mp - 9 in
  (if m <=? 2 then yoe + era * 400 + 1 else yoe + era * 400, m, d).

(** [Day(t)] *)
Definition Day (t : Z) : Z := t / msPerDay.

(** [MakeDay(year, month, date)] with a 0-based month that may lie
    outside 0..11. *)
Definition MakeDay (year month date : Z) : Z :=
  days_from_civil (year + month / 12) (month mod 12 + 1) 1 + date - 1.

(** [new Date(year, monthIndex, day)]: years 0..99 mean 1900..1999. *)
Definition newDate (year month date : Z) : Z :=
  let y := if (0 <=? year) && (year <=? 99) then 1900 + year else year in
  MakeDay y month date * msPerDay.

Definition YearFromTime (t : Z) : Z := (civil_from_days (Day t)).1.1.
(** 1-based, as [format] prints it; [getMonth()] is one less. *)
Definition MonthFromTime (t : Z) : Z := (civil_from_days (Day t)).1.2.
Definition DateFromTime (t : Z) : Z := (civil_from_days (Day t)).2.

(** The calendar date (year, month 1..12, day) a time value falls on. *)
Definition calendar (t : Z) : Z * Z * Z := civil_from_days (Day t).

Definition leap (y : Z) : bool :=
  (y mod 4 =? 0) && (negb (y mod 100 =? 0) || (y mod 400 =? 0)).

Definition days_in_month (y m : Z) : Z :=
  if m =? 2 then (if leap y then 29 else 28)
  else if (m =? 4) || (m =? 6) || (m =? 9) || (m =? 11) then 30 else 31.

(** A date of the calendar. *)
Definition valid_date (y m d : Z) : Prop :=
  1 <= m <= 12 /\ 1 <= d <= days_in_month y m.

(** ** dayjs, as imported

    Both source files import [dayjs] and its Spanish locale and never call
    [dayjs.extend]: no plugin is loaded.  Parsing against a format string
    is the work of the customParseFormat plugin (the library documents
    that parsing with a format depends on it); without it the factory
    keeps the first argument only, so in [dayjs(text, "YYYY-M-D", true)]
    neither the format nor the strict flag is consulted and the core
    parser reads the text alone.  That parser matches its date pattern
    and, on a text [YYYY-M-D] (four digits, a hyphen, one or two digits,
    a hyphen, at most two digits), builds [new Date(YYYY, M - 1, D || 1)],
    in which a month or a day out of range rolls over.  What the library
    and the engine do with any other text (the rest of the pattern, then
    the engine's own Date parser) is not fixed here: it is the
    [dateFallback] of the engine the code runs on. *)

Class JsEngine := { dateFallback : string -> option Z }.

Fixpoint all_digits (s : string) : bool :=
  match s with
  | EmptyString => true
  | String c s' => Js.is_digit c && all_digits s'
  end.

(** The three captures of the date pattern on [YYYY-M-D]. *)
Definition match_ymd (s : string) : option (string * string * string) :=
  match s with
  | String a (String b (String c (String d (String sep r)))) =>
      let y := String a (String b (String c (String d EmptyString))) in
      if all_digits y && Ascii.eqb sep "-" then
        match Js.split "-" r with
        | [m; dd] =>
            if all_digits m && (1 <=? String.length m)%nat && (String.length m <=? 2)%nat
               && all_digits dd && (String.length dd <=? 2)%nat
            then Some (y, m, dd) else None
        | _ => None
        end
      else None
  | _ => None
  end.

(** [dayjs(text)]: the time value, or [None] when [isValid()] is false. *)
Definition dayjs `{JsEngine} (text : string) : option Z :=
  match match_ymd text with
  | Some (y, m, dd) =>
      let month := Js.read_digits 0 m - 1 in
      let date := if Js.truthy dd then Js.read_digits 0 dd else 1 in
      Some (newDate (Js.read_digits 0 y) month date)
  | None => dateFallback text
  end.

(** [d.startOf("day")], [d.endOf("day")], [d.add(1, "day")] *)
Definition startOfDay (t : Z) : Z := Day t * msPerDay.
Definition endOfDay (t : Z) : Z := Day t * msPerDay + (msPerDay - 1).
Definition addDay (t : Z) : Z := t + msPerDay.

(** [a.isSame(b, "day")] and [a.isBefore(b, "day")] *)
Definition isSame (a b : Z) : bool := (startOfDay a <=? b) && (b <=? endOfDay a).
Definition isBefore (a b : Z) : bool := endOfDay a <? b.

(** [d.format("DD/MM/YYYY")] and [d.format("YYYY-MM-DD")] *)
Definition format_DDMMYYYY (t : Z) : string :=
  Js.padStart0 2 (Js.numToString (Some (DateFromTime t))) +:+ "/" +:+
  Js.padStart0 2 (Js.numToString (Some (MonthFromTime t))) +:+ "/" +:+
  Js.padStart0 4 (Js.numToString (Some (YearFromTime t))).

Definition format_YYYYMMDD (t : Z) : string :=
  Js.padStart0 4 (Js.numToString (Some (YearFromTime t))) +:+ "-" +:+
  Js.padStart0 2 (Js.numToString (Some (MonthFromTime t))) +:+ "-" +:+
  Js.padStart0 2 (Js.numToString (Some (DateFromTime t))).

(** ** Fechas *)

(** The year read from the third field and the text handed to dayjs
    (lines 87-88 of [index.js]). *)
Definition year_of_field (y : string) : option Z :=
  if (String.length y =? 2)%nat then (λ n, 2000 + n) <$> Js.parseInt y
  else Js.parseInt y.

Definition date_of_fields `{JsEngine} (d m y : string) : option Z :=
  dayjs (Js.numToString (year_of_field y) +:+ "-" +:+ m +:+ "-" +:+ d).

(** [parseDDMMYY] of [index.js]; the cell is [None] when [undefined]. *)
Definition parseDDMMYY `{JsEngine} (s : option string) : option Z :=
  match s with
  | None => None
  | Some s =>
      if negb (Js.truthy s) then None
      else
        let t := Js.trim s in
        let parts := Js.split "/" t in
        if (length parts <? 3)%nat then None
        else match parts with
             | d :: m :: y :: _ => date_of_fields d m y
             | _ => None
             end
  end.

Module Part000.

(** [parseDDMMYY] of [unnamed/part_000]: the three fields are destructured
    first and each must be truthy. *)
Definition parseDDMMYY `{JsEngine} (s : option string) : option Z :=
  match s with
  | None => None
  | Some s =>
      if negb (Js.truthy s) then None
      else
        let t := Js.trim s in
        let parts := Js.split "/" t in
        match parts !! 0%nat, parts !! 1%nat, parts !! 2%nat with
        | Some d, Some m, Some y =>
            if Js.truthy d && Js.truthy m && Js.truthy y
            then date_of_fields d m y else None
        | _, _, _ => None
        end
  end.

End Part000.

(** ** Configuration (the ENV block) *)

Record Config := {
  DEST_NUMBERS : list string;
  SEND_MODE : string
}.

(** [(process.env.DEST_NUMBERS || "").split(",").map(s => s.trim()).filter(Boolean)] *)
Definition dest_numbers_of_env (v : option string) : list string :=
  filter (λ s, Js.truthy s = true) (Js.trim <$> Js.split "," (Js.or_else v "")).

(** [(process.env.SEND_MODE || "today").toLowerCase()] *)
Definition send_mode_of_env (v : option string) : string :=
  Js.toLowerCase (Js.or_else v "today").

Definition config_of_env (dest mode : option string) : Config :=
  {| DEST_NUMBERS := dest_numbers_of_env dest; SEND_MODE := send_mode_of_env mode |}.

(** ** The world a request runs in, and what a request does to it *)

(** What one [sendText] call meets: the session is not ready (the guard of
    line 132 throws), or [sock.sendMessage] rejects with a message, or the
    text is delivered. *)
Inductive send_outcome :=
| Delivered
| NotReady
| Rejected (e : string).

Record World := {
  (** [values.get]: it throws, or answers [data.values] ([[]] when absent) *)
  sheet : string + list (list string);
  (** [dayjs()] when the handler starts, and when [/preview] replies *)
  now : Z;
  now_reply : Z;
  (** the k-th [sendText] call of the request *)
  channel : nat -> send_outcome;
  (** the k-th [updateCell] call of the request: [Some e] when it throws *)
  store_write : nat -> option string
}.

(** Calls that reach a gateway; [row] is the sheet row of the record the
    handler is working on. *)
Inductive event :=
| ESend (row : nat) (to : string) (text : list Z) (o : send_outcome)
| EWrite (row col : nat) (value : string) (err : option string).

Record Counters := { sends : nat; writes : nat }.

Inductive Res (A : Type) :=
| Ok (a : A)
| Throw (e : string).
Arguments Ok {A} a.
Arguments Throw {A} e.

(** Computations that count gateway calls, log them and may throw. *)
Definition M (A : Type) : Type := Counters -> Res A * list event * Counters.

#[global] Instance M_ret : MRet M := λ A a c, (Ok a, [], c).

#[global] Instance M_bind : MBind M := λ A B k m c,
  match m c with
  | (Ok a, evs, c') =>
      match k a c' with
      | (r, evs', c'') => (r, evs ++ evs', c'')
      end
  | (Throw e, evs, c') => (Throw e, evs, c')
  end.

Definition throw {A} (e : string) : M A := λ c, (Throw e, [], c).

(** ** Google Sheets helpers *)

(** [readRows]: the header row and the data rows; nothing when the sheet
    is empty. *)
Definition readRows (w : World) : M (list string * list (list string)) :=
  match sheet w with
  | inl e => throw e
  | inr [] => mret ([], [])
  | inr (headers :: rows) => mret (headers, rows)
  end.

(** [updateCell(rowIndex1, colIndex1, value)] *)
Definition updateCell (w : World) (row col : nat) (value : string) : M unit :=
  λ c, let err := store_write w (writes c) in
       (match err with Some e => Throw e | None => Ok tt end,
        [EWrite row col value err],
        {| sends := sends c; writes := S (writes c) |}).

(** ** Baileys (WhatsApp) *)

Definition not_ready_message : string :=
  "WhatsApp no est" +:+ String (Js.chr 225) " listo (escanea el QR en /).".

(** [sendText(toNumber, message)], called for the record of row [row].
    The log keeps the address as configured; the WhatsApp suffix that the
    function appends to it and the pauses between calls change nothing
    that is stated below. *)
Definition sendText (w : World) (row : nat) (toNumber : string) (message : list Z)
  : M unit :=
  λ c, let o := channel w (sends c) in
       (match o with
        | Delivered => Ok tt
        | NotReady => Throw not_ready_message
        | Rejected e => Throw e
        end,
        [ESend row toNumber message o],
        {| sends := S (sends c); writes := writes c |}).

(** ** Rutas *)

(** The sent marker: s, i with acute accent (U+00ED). *)
Definition si : string := String "s" (String (Js.chr 237) EmptyString).

Definition normalize_header (h : string) : string := Js.toLowerCase (Js.trim h).

(** [Object.fromEntries(headers.map((h, i) => [h.trim().toLowerCase(), i]))]:
    of two columns with one normalized name the later one stays. *)
Definition header_map (headers : list string) : gmap string nat :=
  list_to_map (reverse (imap (λ i h, (normalize_header h, i)) headers)).

Record Columns := {
  iNombre : nat;
  iCargo : nat;
  iFecha : nat;
  iEnviado : nat
}.

(** [a ?? b] on column positions *)
Definition nullish (a b : option nat) : option nat :=
  match a with Some _ => a | None => b end.

Definition fecha_column (hmap : gmap string nat) : option nat :=
  nullish (hmap !! "fecha")
    (nullish (hmap !! "fecha (dd/mm/yy)") (hmap !! "fecha(dd/mm/yy)")).

(** The four positions, or [None] when one of them is [undefined]. *)
Definition resolve_columns (headers : list string) : option Columns :=
  let hmap := header_map headers in
  match hmap !! "nombre", hmap !! "cargo", fecha_column hmap, hmap !! "enviado" with
  | Some n, Some c, Some f, Some e =>
      Some {| iNombre := n; iCargo := c; iFecha := f; iEnviado := e |}
  | _, _, _, _ => None
  end.

Definition headers_error : string :=
  "Encabezados esperados: Nombre, Cargo, Fecha, Enviado".

Definition dest_error : string := "Configura DEST_NUMBERS".

(** The cells of one row as both loops read them. *)
Definition nombre_of (cols : Columns) (row : list string) : string :=
  Js.trim (Js.or_else (row !! iNombre cols) "").

Definition cargo_of (cols : Columns) (row : list string) : string :=
  Js.trim (Js.or_else (row !! iCargo cols) "").

Definition fecha_of `{JsEngine} (cols : Columns) (row : list string) : option Z :=
  parseDDMMYY (row !! iFecha cols).

Definition enviado_of (cols : Columns) (row : list string) : string :=
  Js.toLowerCase (Js.trim (Js.or_else (row !! iEnviado cols) "")).

(** The condition [cond] of both loops. *)
Definition cond (mode : string) (fecha today : Z) : bool :=
  if String.eqb mode "today" then isSame fecha today
  else isBefore fecha (addDay today).

(** The date of a row that passes both guards of the loop body:
    [if (!fecha || enviado === "sí") continue], then [if (!cond) continue]
    ([return] in the [forEach] of [/preview]). *)
Definition due_fecha `{JsEngine} (mode : string) (today : Z) (cols : Columns)
    (row : list string) : option Z :=
  match fecha_of cols row with
  | None => None
  | Some fecha =>
      if String.eqb (enviado_of cols row) si then None
      else if cond mode fecha today then Some fecha else None
  end.

Record Pending := {
  p_row : nat;
  p_Nombre : string;
  p_Cargo : string;
  p_Fecha : string
}.

Record Sent := {
  s_row : nat;
  s_Nombre : string
}.

Inductive response :=
| PreviewEmpty
| PreviewBody (today mode : string) (to_send : list Pending)
| SentBody (today mode : string) (sent : list Sent) (count : nat)
| ErrorBody (status : Z) (error : string).

(** [rows.forEach] of [/preview], from index [idx] on. *)
Fixpoint preview_rows `{JsEngine} (mode : string) (today : Z) (cols : Columns)
    (idx : nat) (rows : list (list string)) : list Pending :=
  match rows with
  | [] => []
  | row :: rest =>
      let r := (idx + 2)%nat in
      match due_fecha mode today cols row with
      | Some fecha =>
          {| p_row := r; p_Nombre := nombre_of cols row;
             p_Cargo := cargo_of cols row; p_Fecha := format_DDMMYYYY fecha |}
          :: preview_rows mode today cols (S idx) rest
      | None => preview_rows mode today cols (S idx) rest
      end
  end.

(** The [try] block of [/preview]. *)
Definition preview_body `{JsEngine} (cfg : Config) (w : World) : M response :=
  '(headers, rows) ← readRows w;
  (if (length headers =? 0)%nat then mret PreviewEmpty
   else match resolve_columns headers with
        | None => mret (ErrorBody 400 headers_error)
        | Some cols =>
            mret (PreviewBody (format_YYYYMMDD (now_reply w)) (SEND_MODE cfg)
                   (preview_rows (SEND_MODE cfg) (now w) cols 0 rows))
        end).

(** [try { ... } catch (e) { res.status(500).json({ error: e.message }) }] *)
Definition handle (m : M response) : response * list event :=
  match m {| sends := 0; writes := 0 |} with
  | (Ok r, evs, _) => (r, evs)
  | (Throw e, evs, _) => (ErrorBody 500 e, evs)
  end.

Definition preview `{JsEngine} (cfg : Config) (w : World) : response * list event :=
  handle (preview_body cfg w).

(** UTF-16 code units of a text below U+0100. *)
Fixpoint units (s : string) : list Z :=
  match s with
  | EmptyString => []
  | String c s' => Js.code c :: units s'
  end.

(** The reminder text of line 315; it opens with U+1F389 as a surrogate
    pair and breaks lines with LF. *)
Definition message (nombre cargo : string) (fecha : Z) : list Z :=
  [55356; 57225] ++ units " *Recordatorio*" ++ [10] ++
  units "- Nombre: " ++ units nombre ++ [10] ++
  units "- Cargo: " ++ units cargo ++ [10] ++
  units "- Fecha: " ++ units (format_DDMMYYYY fecha).

(** [for (const num of DEST_NUMBERS) { await sendText(num, msg); ... }] *)
Fixpoint send_all (w : World) (r : nat) (msg : list Z) (dests : list string) : M unit :=
  match dests with
  | [] => mret tt
  | num :: rest => sendText w r num msg;; send_all w r msg rest
  end.

(** The [for] loop of [/send_pending] from index [idx] on; [sent] is the
    array built so far. *)
Fixpoint send_rows `{JsEngine} (cfg : Config) (w : World) (today : Z) (cols : Columns)
    (idx : nat) (rows : list (list string)) (sent : list Sent) : M (list Sent) :=
  match rows with
  | [] => mret sent
  | row :: rest =>
      let r := (idx + 2)%nat in
      match due_fecha (SEND_MODE cfg) today cols row with
      | None => send_rows cfg w today cols (S idx) rest sent
      | Some fecha =>
          let nombre := nombre_of cols row in
          let msg := message nombre (cargo_of cols row) fecha in
          send_all w r msg (DEST_NUMBERS cfg);;
          updateCell w r (iEnviado cols + 1) si;;
          send_rows cfg w today cols (S idx) rest
            (sent ++ [{| s_row := r; s_Nombre := nombre |}])
      end
  end.

(** The [try] block of [/send_pending]. *)
Definition send_pending_body `{JsEngine} (cfg : Config) (w : World) : M response :=
  if (length (DEST_NUMBERS cfg) =? 0)%nat then mret (ErrorBody 400 dest_error)
  else
    '(headers, rows) ← readRows w;
    match resolve_columns headers with
    | None => mret (ErrorBody 400 headers_error)
    | Some cols =>
        sent ← send_rows cfg w (now w) cols 0 rows [];
        mret (SentBody (format_YYYYMMDD (now w)) (SEND_MODE cfg) sent (length sent))
    end.

Definition send_pending `{JsEngine} (cfg : Config) (w : World) : response * list event :=
  handle (send_pending_body cfg w).

(** The due set both handlers select: the rows that pass the guards, with
    their sheet row numbers; nothing when the header row does not resolve. *)
Definition due_rows `{JsEngine} (cfg : Config) (w : World) : list nat :=
  match sheet w with
  | inr (headers :: rows) =>
      match resolve_columns headers with
      | Some cols =>
          p_row <$> preview_rows (SEND_MODE cfg) (now w) cols 0 rows
      | None => []
      end
  | _ => []
  end.

(** ** Orders and engines used in the statements *)

(** Lexicographic order on (year, month, day). *)
Definition date_lt (a b : Z * Z * Z) : Prop :=
  a.1.1 < b.1.1 \/
  (a.1.1 = b.1.1 /\ (a.1.2 < b.1.2 \/ (a.1.2 = b.1.2 /\ a.2 < b.2))).

Definition date_le (a b : Z * Z * Z) : Prop := a = b \/ date_lt a b.

(** The engine a closed example runs on: no text outside [YYYY-M-D] is a date. *)
Definition plain_engine : JsEngine := {| dateFallback := λ _, None |}.

(** ** What a pass leaves in the log *)

(** Successful sends of one text to each address, in order. *)
Definition sends_ok (r : nat) (msg : list Z) (dests : list string) : list event :=
  (λ num, ESend r num msg Delivered) <$> dests.

(** The message of the error a failed [sendText] throws. *)
Definition error_of (o : send_outcome) : string :=
  match o with
  | Delivered => EmptyString
  | NotReady => not_ready_message
  | Rejected e => e
  end.

Definition event_row (e : event) : nat :=
  match e with
  | ESend r _ _ _ => r
  | EWrite r _ _ _ => r
  end.

Definition is_write (e : event) : Prop :=
  match e with EWrite _ _ _ _ => True | ESend _ _ _ _ => False end.

(** The log of the loop of [/send_pending] over [rows] from index [idx],
    and the message of the error that ended it, if one did. *)
Inductive loop_trace `{JsEngine} (cfg : Config) (today : Z) (cols : Columns)
  : nat -> list (list string) -> list event -> option string -> Prop :=
| lt_done idx :
    loop_trace cfg today cols idx [] [] None
| lt_skip idx row rest evs res :
    due_fecha (SEND_MODE cfg) today cols row = None ->
    loop_trace cfg today cols (S idx) rest evs res ->
    loop_trace cfg today cols idx (row :: rest) evs res
| lt_mark idx row rest fecha evs res :
    due_fecha (SEND_MODE cfg) today cols row = Some fecha ->
    loop_trace cfg today cols (S idx) rest evs res ->
    loop_trace cfg today cols idx (row :: rest)
      (sends_ok (idx + 2) (message (nombre_of cols row) (cargo_of cols row) fecha)
         (DEST_NUMBERS cfg)
       ++ EWrite (idx + 2) (iEnviado cols + 1) si None :: evs) res
| lt_send_failed idx row rest fecha pre num post o :
    due_fecha (SEND_MODE cfg) today cols row = Some fecha ->
    DEST_NUMBERS cfg = pre ++ num :: post ->
    o <> Delivered ->
    loop_trace cfg today cols idx (row :: rest)
      (sends_ok (idx + 2) (message (nombre_of cols row) (cargo_of cols row) fecha) pre
       ++ [ESend (idx + 2) num (message (nombre_of cols row) (cargo_of cols row) fecha) o])
      (Some (error_of o))
| lt_write_failed idx row rest fecha e :
    due_fecha (SEND_MODE cfg) today cols row = Some fecha ->
    loop_trace cfg today cols idx (row :: rest)
      (sends_ok (idx + 2) (message (nombre_of cols row) (cargo_of cols row) fecha)
         (DEST_NUMBERS cfg)
       ++ [EWrite (idx + 2) (iEnviado cols + 1) si (Some e)])
      (Some e).

(** One of the four logical fields has no column in the header row. *)
Definition field_missing (headers : list string) : Prop :=
  let names := normalize_header <$> headers in
  ("nombre" ∉ names) \/ ("cargo" ∉ names) \/
  (("fecha" ∉ names) /\ ("fecha (dd/mm/yy)" ∉ names) /\ ("fecha(dd/mm/yy)" ∉ names)) \/
  ("enviado" ∉ names).

(** The sent marker in its four letter cases (U+00CD is the capital). *)
Definition si_cases : list string :=
  [si; String "S" (String (Js.chr 237) EmptyString);
   String "s" (String (Js.chr 205) EmptyString);
   String "S" (String (Js.chr 205) EmptyString)].

(** The rows a preview answer lists. *)
Definition to_send_of (r : response) : list Pending :=
  match r with
  | PreviewBody _ _ l => l
  | _ => []
  end.

(** ** Sheets and settings of the scenarios *)

Definition headers_A : list string := ["Nombre"; "Cargo"; "Fecha"; "Enviado"].

(** Scenario A: one record, dated 1 June 2025, not sent. *)
Definition sheet_A : list (list string) :=
  [headers_A; ["Ana"; "Jefa"; "01/06/25"; "no"]].

(** Scenario C: the same record, marked sent in capitals. *)
Definition sheet_C : list (list string) :=
  [headers_A; ["Ana"; "Jefa"; "01/06/25"; String "S" (String (Js.chr 205) EmptyString)]].

(** Two records due on 1 June 2025. *)
Definition sheet_two : list (list string) :=
  [headers_A; ["Ana"; "Jefa"; "01/06/25"; "no"]; ["Luis"; "Jefe"; "1/6/2025"; ""]].

(** Scenario D: no "Cargo" column. *)
Definition sheet_D : list (list string) :=
  [["Nombre"; "Fecha"; "Enviado"]; ["Ana"; "01/06/25"; "no"]].

(** A header row without cells above a data row. *)
Definition sheet_blank_header : list (list string) :=
  [[]; ["Ana"; "Jefa"; "01/06/25"; "no"]].

(** 1 June 2025, 09:00. *)
Definition june_1 : Z := newDate 2025 5 1 + 9 * 3600000.

Definition world_of (values : list (list string)) (ch : nat -> send_outcome) : World :=
  {| sheet := inr values; now := june_1; now_reply := june_1 + 1;
     channel := ch; store_write := λ _, None |}.

Definition one_dest : Config :=
  {| DEST_NUMBERS := ["5215500000001"]; SEND_MODE := "today" |}.

Definition two_dests : Config :=
  {| DEST_NUMBERS := ["5215500000001"; "5215500000002"]; SEND_MODE := "today" |}.

Definition no_dest : Config := {| DEST_NUMBERS := []; SEND_MODE := "today" |}.

(** The first [sendText] call is rejected, the later ones deliver. *)
Definition first_rejected (k : nat) : send_outcome :=
  match k with O => Rejected "timeout" | S _ => Delivered end.

(** A day or month as the sheet writes it: one or two digits. *)
Definition day_month_field (s : string) : Prop :=
  all_digits s = true /\ (1 <= String.length s <= 2)%nat.

(** A year of two digits, or of four that do not start with 0. *)
Definition year_field (s : string) : Prop :=
  all_digits s = true /\
  (String.length s = 2%nat \/ (String.length s = 4%nat /\ 1000 <= Js.read_digits 0 s)).

(** The year such a field stands for. *)
Definition year_meant (s : string) : Z :=
  if (String.length s =? 2)%nat then 2000 + Js.read_digits 0 s else Js.read_digits 0 s.

(** ** The rest of the file: addresses, session, status and test routes *)

(** [Number.MAX_SAFE_INTEGER], 2^53 - 1: up to it the integers are doubles
    one by one, and [n - 1], [% 26] and [Math.floor(_ / 26)] on them are
    the operations on integers. *)
Definition MAX_SAFE_INTEGER : Z := 9007199254740991.

(** [colToA1]: the [while (n > 0)] loop, with [s] the letters found so
    far, for a column number up to [MAX_SAFE_INTEGER] (above it the engine
    rounds [n - 1] and the letters are others). *)
Equations? colToA1_loop (n : Z) (s : string) : string by wf (Z.to_nat n) lt :=
  colToA1_loop n s with decide (0 < n) := {
    | left _ => colToA1_loop ((n - 1) / 26) (String (Js.chr (65 + (n - 1) mod 26)) s)
    | right _ => s }.
Proof. Z.div_mod_to_equations. lia. Qed.

Definition colToA1 (colIndex : Z) : string := colToA1_loop colIndex EmptyString.

(** The column number a run of capital letters stands for, read from the
    left with the letters A..Z worth 1..26. *)
Fixpoint a1_value (acc : Z) (s : string) : Z :=
  match s with
  | EmptyString => acc
  | String c s' => a1_value (26 * acc + (Js.code c - 64)) s'
  end.

Definition is_capital (c : ascii) : bool :=
  let n := Js.code c in (65 <=? n) && (n <=? 90).

Fixpoint all_capitals (s : string) : bool :=
  match s with
  | EmptyString => true
  | String c s' => is_capital c && all_capitals s'
  end.

(** The range [updateCell] writes:
    [`${WORKSHEET_NAME}!${colToA1(colIndex1)}${rowIndex1}`], for a row and
    a column number up to [MAX_SAFE_INTEGER] (the row prints with all its
    digits there). *)
Definition cell_range (worksheet : string) (rowIndex1 colIndex1 : Z) : string :=
  worksheet +:+ "!" +:+ colToA1 colIndex1 +:+ Js.numToString (Some rowIndex1).

(** The store's side of [updateCell]: one cell of the sheet, addressed
    from 1, takes the value; the sheet grows by empty rows and empty
    cells when the cell lies outside it. *)
Definition pad_to {A} (n : nat) (x : A) (l : list A) : list A :=
  l ++ replicate (n - length l) x.

Definition set_cell (values : list (list string)) (row col : nat) (v : string)
  : list (list string) :=
  <[(row - 1)%nat := <[(col - 1)%nat := v]> (pad_to col EmptyString
                                             (default [] (values !! (row - 1)%nat)))]>
    (pad_to row [] values).

(** The sheet after the writes of a log that did not throw. *)
Definition store_after (values : list (list string)) (evs : list event)
  : list (list string) :=
  foldl (λ vals e, match e with
                   | EWrite r c v None => set_cell vals r c v
                   | _ => vals
                   end) values evs.

(** The rows a log marked: its writes that did not throw, in order. *)
Definition written_rows (evs : list event) : list nat :=
  omap (λ e, match e with EWrite r _ _ None => Some r | _ => None end) evs.

(** [s.includes(p)] *)
Fixpoint includes (p s : string) : bool :=
  String.prefix p s ||
  match s with
  | EmptyString => false
  | String _ s' => includes p s'
  end.

(** The address [sendText] hands to the socket (lines 133-135). *)
Definition jid_of (toNumber : string) : string :=
  if includes "@s.whatsapp.net" toNumber then toNumber
  else toNumber +:+ "@s.whatsapp.net".

(** The session state of the "App & estado" block. *)
Record Session := {
  connReady : bool;
  lastQR : string;
  lastQRAt : Z
}.

Definition session0 : Session := {| connReady := false; lastQR := EmptyString; lastQRAt := 0 |}.

(** What a "connection.update" event carries: [connection],
    [lastDisconnect?.error?.output?.statusCode] and [qr], each [None] when
    undefined. *)
Record Update := {
  connection : option string;
  statusCode : option Z;
  qr : option string
}.

(** The handler of "connection.update" (lines 106-128).  [loggedOut] is
    [DisconnectReason.loggedOut] of the Baileys library and [clock] is
    [Date.now()]; the boolean tells whether [startWA] is called again. *)
Definition connection_update (loggedOut clock : Z) (st : Session) (u : Update)
  : Session * bool :=
  let st1 :=
    match qr u with
    | Some q =>
        if Js.truthy q
        then {| connReady := false; lastQR := q; lastQRAt := clock |}
        else st
    | None => st
    end in
  match connection u with
  | Some c =>
      if String.eqb c "open"
      then ({| connReady := true; lastQR := EmptyString; lastQRAt := 0 |}, false)
      else if String.eqb c "close"
      then ({| connReady := false; lastQR := lastQR st1; lastQRAt := lastQRAt st1 |},
            match statusCode u with
            | Some code => negb (code =? loggedOut)
            | None => true
            end)
      else (st1, false)
  | None => (st1, false)
  end.

(** The session after a run of events, each with the clock it was handled at. *)
Definition run_updates (loggedOut : Z) (st : Session) (us : list (Z * Update)) : Session :=
  foldl (λ s cu, (connection_update loggedOut cu.1 s cu.2).1) st us.

(** The settings of the ENV block that [Config] leaves out. *)
Record Env := {
  SHEET_KEY : string;
  WORKSHEET_NAME : string
}.

(** [(process.env.SHEET_KEY || "").trim()] and
    [process.env.WORKSHEET_NAME || "Hoja 1"] *)
Definition env_of (key worksheet : option string) : Env :=
  {| SHEET_KEY := Js.trim (Js.or_else key EmptyString);
     WORKSHEET_NAME := Js.or_else worksheet "Hoja 1" |}.

(** The body of [/status]. *)
Record Status := {
  connected : bool;
  hasQR : bool;
  qrAgeMs : option Z;
  sheetKey : bool;
  worksheet : string;
  destNumbers : nat;
  sendMode : string
}.

Definition status (env : Env) (cfg : Config) (st : Session) (clock : Z) : Status :=
  {| connected := connReady st;
     hasQR := Js.truthy (lastQR st);
     qrAgeMs := if lastQRAt st =? 0 then None else Some (clock - lastQRAt st);
     sheetKey := Js.truthy (SHEET_KEY env);
     worksheet := WORKSHEET_NAME env;
     destNumbers := length (DEST_NUMBERS cfg);
     sendMode := SEND_MODE cfg |}.







(** The entry of the sent list that goes with an entry of the preview. *)
Definition sent_of (p : Pending) : Sent := {| s_row := p_row p; s_Nombre := p_Nombre p |}.


(** What a "connection.update" event does to the session. *)
Definition opens (u : Update) : bool :=
  match connection u with Some c => String.eqb c "open" | None => false end.

Definition closes (u : Update) : bool :=
  match connection u with Some c => String.eqb c "close" | None => false end.

Definition carries_qr (u : Update) : bool :=
  match qr u with Some q => Js.truthy q | None => false end.

(** Column [i] is the last one whose normalized header is [k]. *)
Definition last_column (headers : list string) (k : string) (i : nat) : Prop :=
  (normalize_header <$> headers) !! i = Some k /\
  forall j, (i < j)%nat -> (normalize_header <$> headers) !! j <> Some k.

(** What a call made for a due row carries. *)
Definition call_of_row `{JsEngine} (cfg : Config) (cols : Columns) (row : list string)
    (fecha : Z) (e : event) : Prop :=
  match e with
  | ESend _ to text _ =>
      to ∈ DEST_NUMBERS cfg /\
      text = message (nombre_of cols row) (cargo_of cols row) fecha
  | EWrite _ c v _ => c = (iEnviado cols + 1)%nat /\ v = si
  end.

(** The writes of a pass: one column, one value, rows of the sheet below
    the header row. *)
Definition marks (ce n : nat) (e : event) : Prop :=
  match e with
  | EWrite r c v _ => c = (ce + 1)%nat /\ v = si /\ (2 <= r <= n)%nat
  | ESend _ _ _ _ => True
  end.

(** * Properties *)

Ltac zdiv := Z.div_mod_to_equations; lia.

(** *** The calendar *)

Lemma days_from_civil_day y m d :
  days_from_civil y m d = days_from_civil y m 1 + d - 1.
Proof. unfold days_from_civil. lia. Qed.

(** The day number of the calendar date of a day number is that number. *)
Lemma days_from_civil_of_civil n :
  let '(y, m, d) := civil_from_days n in days_from_civil y m d = n.
Proof.
  unfold civil_from_days, days_from_civil. cbv zeta.
  set (z := n + 719468). set (era := z / 146097). set (doe := z - era * 146097).
  set (yoe := (doe - doe / 1460 + doe / 36524 - doe / 146096) / 365).
  set (doy := doe - (365 * yoe + yoe / 4 - yoe / 100)).
  set (mp := (5 * doy + 2) / 153).
  assert (0 <= doe < 146097) by (unfold doe, era; zdiv).
  assert (0 <= yoe < 400 /\ 0 <= doy <= 365) as [? ?] by (unfold doy, yoe; zdiv).
  assert (0 <= mp <= 11) by (unfold mp; zdiv).
  destruct (mp <? 10) eqn:E1.
  - replace (mp + 3 <=? 2) with false by lia.
    replace (2 <? mp + 3) with true by lia.
    replace ((yoe + era * 400) / 400) with era by zdiv.
    unfold doy, z; zdiv.
  - replace (mp - 9 <=? 2) with true by lia.
    replace (2 <? mp - 9) with false by lia.
    replace ((yoe + era * 400 + 1 - 1) / 400) with era by zdiv.
    unfold doy, z; zdiv.
Qed.

Lemma civil_from_days_inj n1 n2 :
  civil_from_days n1 = civil_from_days n2 -> n1 = n2.
Proof.
  intros E. pose proof (days_from_civil_of_civil n1) as H1.
  pose proof (days_from_civil_of_civil n2) as H2.
  rewrite E in H1. destruct (civil_from_days n2) as [[y m] d]. congruence.
Qed.

Lemma month_cases m :
  1 <= m <= 12 ->
  m = 1 \/ m = 2 \/ m = 3 \/ m = 4 \/ m = 5 \/ m = 6 \/
  m = 7 \/ m = 8 \/ m = 9 \/ m = 10 \/ m = 11 \/ m = 12.
Proof. lia. Qed.

Lemma leap_spec y :
  leap y = true <-> y mod 4 = 0 /\ (y mod 100 <> 0 \/ y mod 400 = 0).
Proof. unfold leap. lia. Qed.

(** A date of the calendar comes back from its day number. *)
Lemma civil_of_days_from_civil y m d :
  valid_date y m d -> civil_from_days (days_from_civil y m d) = (y, m, d).
Proof.
  intros [Hm Hd].
  unfold civil_from_days, days_from_civil. cbv zeta.
  set (y' := if m <=? 2 then y - 1 else y).
  set (era := y' / 400). set (yoe := y' - era * 400).
  set (mp := if 2 <? m then m - 3 else m + 9).
  set (doy := (153 * mp + 2) / 5 + d - 1).
  set (doe := yoe * 365 + yoe / 4 - yoe / 100 + doy).
  assert (0 <= yoe < 400) as Hyoe by (unfold yoe, era; zdiv).
  assert (y' = yoe + era * 400) as Hy' by (unfold yoe; lia).
  assert (0 <= doy <= 365 /\
          (doy = 365 -> yoe mod 4 = 3 /\ (yoe mod 100 <> 99 \/ yoe = 399)) /\
          (5 * doy + 2) / 153 = mp /\ 0 <= mp <= 11) as (Hdoy & Hleap & Hmp & Hmpb).
  { unfold days_in_month in Hd.
    destruct (leap y) eqn:El.
    - apply leap_spec in El.
      destruct (month_cases m Hm) as [->|[->|[->|[->|[->|[->|[->|[->|[->|[->|[->| ->]]]]]]]]]]];
        simpl in *; unfold doy, mp; simpl; repeat split; try zdiv.
    - assert (~ (y mod 4 = 0 /\ (y mod 100 <> 0 \/ y mod 400 = 0))) as Hn
        by (rewrite <- leap_spec; congruence).
      destruct (month_cases m Hm) as [->|[->|[->|[->|[->|[->|[->|[->|[->|[->|[->| ->]]]]]]]]]]];
        simpl in *; unfold doy, mp; simpl; repeat split; try zdiv. }
  assert (0 <= doe < 146097) as Hdoe by (unfold doe; zdiv).
  replace (era * 146097 + doe - 719468 + 719468) with (doe + era * 146097) by lia.
  rewrite Z.div_add by lia. rewrite (Z.div_small doe) by lia. rewrite Z.add_0_l.
  replace (doe + era * 146097 - era * 146097) with doe by lia.
  assert ((doe - doe / 1460 + doe / 36524 - doe / 146096) / 365 = yoe) as ->
    by (unfold doe; zdiv).
  replace (doe - (365 * yoe + yoe / 4 - yoe / 100)) with doy by (unfold doe; lia).
  rewrite Hmp.
  assert ((if mp <? 10 then mp + 3 else mp - 9) = m) as ->
    by (unfold mp; destruct (2 <? m) eqn:?; destruct (_ <? 10) eqn:?; lia).
  f_equal; [f_equal|].
  - unfold y' in Hy'. destruct (m <=? 2); lia.
  - unfold doy. lia.
Qed.

(** A day number falls on a date of the calendar. *)
Lemma civil_from_days_valid n :
  let '(y, m, d) := civil_from_days n in valid_date y m d.
Proof.
  unfold civil_from_days, valid_date, days_in_month. cbv zeta.
  set (z := n + 719468). set (era := z / 146097). set (doe := z - era * 146097).
  set (yoe := (doe - doe / 1460 + doe / 36524 - doe / 146096) / 365).
  set (doy := doe - (365 * yoe + yoe / 4 - yoe / 100)).
  set (mp := (5 * doy + 2) / 153).
  assert (0 <= doe < 146097) by (unfold doe, era; zdiv).
  assert (0 <= yoe < 400 /\ 0 <= doy <= 365 /\
          (doy = 365 -> yoe mod 4 = 3 /\ (yoe mod 100 <> 99 \/ yoe = 399)))
    as (? & ? & Hl) by (unfold doy, yoe; zdiv).
  assert (0 <= mp <= 11) as Hmp by (unfold mp; zdiv).
  assert (mp = 0 \/ mp = 1 \/ mp = 2 \/ mp = 3 \/ mp = 4 \/ mp = 5 \/ mp = 6 \/
          mp = 7 \/ mp = 8 \/ mp = 9 \/ mp = 10 \/ mp = 11) as Hc by lia.
  assert (mp = 11 -> doy - (153 * mp + 2) / 5 + 1 = 29 ->
          leap (yoe + era * 400 + 1) = true) as Hfeb.
  { intros E1 E2. rewrite E1 in E2. simpl in E2. apply leap_spec. zdiv. }
  assert (mp = (5 * doy + 2) / 153) as Hdef by reflexivity.
  clearbody mp. clearbody doy. clearbody yoe. clear Hl.
  destruct Hc as [E|[E|[E|[E|[E|[E|[E|[E|[E|[E|[E|E]]]]]]]]]]];
    subst mp; simpl; try (split; [lia|]; zdiv).
  split; [lia|].
  destruct (leap _) eqn:El.
  - zdiv.
  - assert (doy - 337 + 1 <> 29)
      by (intros E2; assert (false = true) by (apply Hfeb; [done|zdiv]); done).
    zdiv.
Qed.

Lemma next_month y m :
  1 <= m < 12 ->
  days_from_civil y (m + 1) 1 = days_from_civil y m (days_in_month y m) + 1.
Proof.
  intros Hm. unfold days_in_month.
  destruct (leap y) eqn:El.
  - apply leap_spec in El.
    assert (m = 1 \/ m = 2 \/ m = 3 \/ m = 4 \/ m = 5 \/ m = 6 \/
            m = 7 \/ m = 8 \/ m = 9 \/ m = 10 \/ m = 11) as Hc by lia.
    destruct Hc as [->|[->|[->|[->|[->|[->|[->|[->|[->|[->| ->]]]]]]]]]];
      unfold days_from_civil; simpl; zdiv.
  - assert (~ (y mod 4 = 0 /\ (y mod 100 <> 0 \/ y mod 400 = 0))) as Hn
      by (rewrite <- leap_spec; congruence).
    assert (m = 1 \/ m = 2 \/ m = 3 \/ m = 4 \/ m = 5 \/ m = 6 \/
            m = 7 \/ m = 8 \/ m = 9 \/ m = 10 \/ m = 11) as Hc by lia.
    destruct Hc as [->|[->|[->|[->|[->|[->|[->|[->|[->|[->| ->]]]]]]]]]];
      unfold days_from_civil; simpl; zdiv.
Qed.

Lemma next_year y : days_from_civil (y + 1) 1 1 = days_from_civil y 12 31 + 1.
Proof. unfold days_from_civil. simpl. zdiv. Qed.

(** The next day number falls on a later date. *)
Lemma civil_from_days_next n :
  date_lt (civil_from_days n) (civil_from_days (n + 1)).
Proof.
  pose proof (civil_from_days_valid n) as Hv.
  pose proof (days_from_civil_of_civil n) as Hn.
  destruct (civil_from_days n) as [[y m] d] eqn:E.
  destruct Hv as [Hm Hd].
  destruct (decide (d < days_in_month y m)) as [Hlt|Hge].
  - assert (n + 1 = days_from_civil y m (d + 1)) as ->
      by (rewrite (days_from_civil_day y m (d + 1)), (days_from_civil_day y m d) in *; lia).
    rewrite civil_of_days_from_civil by (split; lia).
    unfold date_lt; simpl; lia.
  - assert (d = days_in_month y m) as Hd' by lia.
    destruct (decide (m < 12)) as [Hm'|Hm'].
    + assert (n + 1 = days_from_civil y (m + 1) 1) as ->
        by (rewrite next_month by lia; congruence).
      rewrite civil_of_days_from_civil.
      * unfold date_lt; simpl; lia.
      * split; [lia|]. unfold days_in_month.
        repeat match goal with |- context [if ?b then _ else _] => destruct b end; lia.
    + assert (m = 12) as -> by lia.
      assert (d = 31) as -> by (rewrite Hd'; reflexivity).
      assert (n + 1 = days_from_civil (y + 1) 1 1) as ->
        by (rewrite next_year; congruence).
      rewrite civil_of_days_from_civil by (split; [lia|unfold days_in_month; simpl; lia]).
      unfold date_lt; simpl; lia.
Qed.

Lemma date_lt_trans a b c : date_lt a b -> date_lt b c -> date_lt a c.
Proof. unfold date_lt. lia. Qed.

Lemma date_lt_irrefl a : ~ date_lt a a.
Proof. unfold date_lt. lia. Qed.

Lemma civil_from_days_lt n1 n2 :
  n1 < n2 -> date_lt (civil_from_days n1) (civil_from_days n2).
Proof.
  intros H. replace n2 with (n1 + 1 + (n2 - n1 - 1)) by lia.
  assert (0 <= n2 - n1 - 1) as Hk by lia.
  revert Hk. generalize (n2 - n1 - 1) as k.
  apply natlike_ind.
  - rewrite Z.add_0_r. apply civil_from_days_next.
  - intros k Hk IH. eapply date_lt_trans; [exact IH|].
    replace (n1 + 1 + Z.succ k) with (n1 + 1 + k + 1) by lia.
    apply civil_from_days_next.
Qed.

(** Day numbers and calendar dates are ordered alike. *)
Lemma civil_from_days_le n1 n2 :
  n1 <= n2 <-> date_le (civil_from_days n1) (civil_from_days n2).
Proof.
  split.
  - intros H. destruct (decide (n1 = n2)) as [->|Hne]; [by left|].
    right. apply civil_from_days_lt. lia.
  - intros [E|Hlt].
    + apply civil_from_days_inj in E. lia.
    + destruct (decide (n1 <= n2)) as [|Hgt]; [done|]. exfalso.
      assert (n2 < n1) as H by lia. apply civil_from_days_lt in H.
      exact (date_lt_irrefl _ (date_lt_trans _ _ _ Hlt H)).
Qed.

Lemma civil_from_days_lt_iff n1 n2 :
  n1 < n2 <-> date_lt (civil_from_days n1) (civil_from_days n2).
Proof.
  split; [apply civil_from_days_lt|].
  intros Hlt. destruct (decide (n1 < n2)) as [|Hge]; [done|]. exfalso.
  assert (date_le (civil_from_days n2) (civil_from_days n1)) as [E|H]
    by (apply civil_from_days_le; lia).
  - rewrite E in Hlt. exact (date_lt_irrefl _ Hlt).
  - exact (date_lt_irrefl _ (date_lt_trans _ _ _ Hlt H)).
Qed.

(** *** The date policy *)

Lemma isSame_Day a b : isSame a b = true <-> Day a = Day b.
Proof. unfold isSame, startOfDay, endOfDay, Day, msPerDay. zdiv. Qed.

Lemma isBefore_addDay a b : isBefore a (addDay b) = true <-> Day a <= Day b.
Proof. unfold isBefore, addDay, endOfDay, Day, msPerDay. zdiv. Qed.

Lemma Day_addDay t : Day (addDay t) = Day t + 1.
Proof. unfold addDay, Day, msPerDay. zdiv. Qed.

Lemma cond_today fecha today :
  cond "today" fecha today = true <-> calendar fecha = calendar today.
Proof.
  unfold cond, calendar. simpl. rewrite isSame_Day. split; [congruence|].
  apply civil_from_days_inj.
Qed.

Lemma cond_other mode fecha today :
  mode <> "today" ->
  (cond mode fecha today = true <-> date_le (calendar fecha) (calendar today)).
Proof.
  intros Hm. unfold cond, calendar.
  destruct (String.eqb_spec mode "today") as [|_]; [done|].
  rewrite isBefore_addDay. apply civil_from_days_le.
Qed.

(** *** Engine strings *)

Lemma append_cons a s t : String a s +:+ t = String a (s +:+ t).
Proof. reflexivity. Qed.

Lemma append_nil t : EmptyString +:+ t = t.
Proof. reflexivity. Qed.

Lemma digit_not_space c : Js.is_digit c = true -> Js.is_space c = false.
Proof. unfold Js.is_digit, Js.is_space. lia. Qed.

Lemma digit_neq c x : Js.is_digit c = true -> Js.is_digit x = false -> Ascii.eqb c x = false.
Proof.
  intros Hc Hx. destruct (Ascii.eqb_spec c x) as [->|]; [congruence|done].
Qed.

Lemma split_not_nil sep s : Js.split sep s <> [].
Proof.
  destruct s as [|c s]; simpl; [done|].
  destruct (Ascii.eqb c sep); [done|]. by destruct (Js.split sep s).
Qed.

(** A text without the separator is one field. *)
Lemma single_field_tail sep c s :
  Js.split sep (String c s) = [String c s] ->
  Ascii.eqb c sep = false /\ Js.split sep s = [s].
Proof.
  simpl. destruct (Ascii.eqb c sep); [done|].
  destruct (Js.split sep s) as [|h t] eqn:E.
  - by destruct (split_not_nil sep s).
  - intros [= -> ->]. done.
Qed.

Lemma split_field_app sep a b :
  Js.split sep a = [a] ->
  Js.split sep (a +:+ String sep b) = a :: Js.split sep b.
Proof.
  induction a as [|c a IH]; intros H; simpl.
  - by rewrite Ascii.eqb_refl.
  - apply single_field_tail in H as [-> H]. by rewrite (IH H).
Qed.

Lemma single_field_trimStart sep s :
  Js.split sep s = [s] -> Js.split sep (Js.trimStart s) = [Js.trimStart s].
Proof.
  induction s as [|c s IH]; intros H; [done|].
  pose proof (single_field_tail _ _ _ H) as [_ H'].
  simpl. destruct (Js.is_space c); [by apply IH|done].
Qed.

Lemma all_digits_single_field sep s :
  Js.is_digit sep = false -> all_digits s = true -> Js.split sep s = [s].
Proof.
  intros Hs. induction s as [|c s IH]; [done|]. simpl.
  intros [Hc Hd]%andb_prop. rewrite (digit_neq _ _ Hc Hs), (IH Hd). done.
Qed.

Lemma trimStart_app_sep c s t :
  Js.is_space c = false ->
  Js.trimStart (s +:+ String c t) = Js.trimStart s +:+ String c t.
Proof.
  intros Hc. induction s as [|a s IH]; simpl; [by rewrite Hc|].
  by destruct (Js.is_space a).
Qed.

Lemma trimEnd_app_sep c s t :
  Js.is_space c = false ->
  Js.trimEnd (s +:+ String c t) = s +:+ String c (Js.trimEnd t).
Proof.
  intros Hc. induction s as [|a s IH]; simpl.
  - rewrite Hc. by destruct (Js.trimEnd t).
  - rewrite IH. by destruct s.
Qed.

Lemma single_field_trimEnd sep s :
  Js.split sep s = [s] -> Js.split sep (Js.trimEnd s) = [Js.trimEnd s].
Proof.
  induction s as [|c s IH]; intros H; [done|].
  pose proof (single_field_tail _ _ _ H) as [Hc H'].
  specialize (IH H'). simpl.
  destruct (Js.trimEnd s) as [|a t] eqn:E.
  - destruct (Js.is_space c); [done|]. simpl. by rewrite Hc.
  - simpl. rewrite Hc. simpl in IH. by rewrite IH.
Qed.

Lemma all_digits_trimStart s : all_digits s = true -> Js.trimStart s = s.
Proof.
  destruct s as [|c s]; [done|]. simpl. intros [Hc _]%andb_prop.
  by rewrite (digit_not_space _ Hc).
Qed.

Lemma all_digits_trimEnd s : all_digits s = true -> Js.trimEnd s = s.
Proof.
  induction s as [|c s IH]; [done|]. simpl. intros [Hc Hd]%andb_prop.
  rewrite (IH Hd). destruct s; [by rewrite (digit_not_space _ Hc)|done].
Qed.

Lemma truthy_app_sep s c t : Js.truthy (s +:+ String c t) = true.
Proof. by destruct s. Qed.

(** The fields of a text that has at least three separators after [trim]. *)
Lemma split_trim_four d m y rest :
  Js.split "/" d = [d] -> Js.split "/" m = [m] -> Js.split "/" y = [y] ->
  Js.split "/" (Js.trim (d +:+ "/" +:+ m +:+ "/" +:+ y +:+ "/" +:+ rest)) =
  Js.trimStart d :: m :: y :: Js.split "/" (Js.trimEnd rest).
Proof.
  intros Hd Hm Hy. unfold Js.trim.
  change (d +:+ "/" +:+ m +:+ "/" +:+ y +:+ "/" +:+ rest)
    with (d +:+ String "/" (m +:+ String "/" (y +:+ String "/" rest))).
  rewrite trimStart_app_sep by done.
  rewrite !trimEnd_app_sep by done.
  rewrite split_field_app by (by apply single_field_trimStart).
  by rewrite !split_field_app.
Qed.

Lemma split_trim_three d m y :
  Js.split "/" d = [d] -> Js.split "/" m = [m] -> Js.split "/" y = [y] ->
  Js.split "/" (Js.trim (d +:+ "/" +:+ m +:+ "/" +:+ y)) =
  [Js.trimStart d; m; Js.trimEnd y].
Proof.
  intros Hd Hm Hy. unfold Js.trim.
  change (d +:+ "/" +:+ m +:+ "/" +:+ y)
    with (d +:+ String "/" (m +:+ String "/" y)).
  rewrite trimStart_app_sep by done.
  rewrite !trimEnd_app_sep by done.
  rewrite split_field_app by (by apply single_field_trimStart).
  rewrite split_field_app by done.
  by rewrite single_field_trimEnd.
Qed.

(** *** Numbers and digits *)

Lemma digit_val_bounds c : Js.is_digit c = true -> 0 <= Js.digit_val c <= 9.
Proof. unfold Js.is_digit, Js.digit_val. lia. Qed.

Lemma is_digit_chr k :
  0 <= k <= 9 ->
  Js.is_digit (Js.chr (48 + k)) = true /\ Js.digit_val (Js.chr (48 + k)) = k.
Proof.
  intros Hk.
  assert (k = 0 \/ k = 1 \/ k = 2 \/ k = 3 \/ k = 4 \/ k = 5 \/ k = 6 \/
          k = 7 \/ k = 8 \/ k = 9) as Hc by lia.
  destruct Hc as [->|[->|[->|[->|[->|[->|[->|[->|[->| ->]]]]]]]]]; done.
Qed.

Lemma read_digits_bounds s acc :
  all_digits s = true -> 0 <= acc ->
  acc * 10 ^ Z.of_nat (String.length s) <= Js.read_digits acc s
  < (acc + 1) * 10 ^ Z.of_nat (String.length s).
Proof.
  revert acc. induction s as [|c s IH]; intros acc Hd Hacc.
  - simpl. lia.
  - simpl in Hd. apply andb_prop in Hd as [Hc Hd].
    simpl Js.read_digits. rewrite Hc.
    pose proof (digit_val_bounds _ Hc) as Hv.
    specialize (IH (10 * acc + Js.digit_val c) Hd ltac:(lia)).
    change (String.length (String c s)) with (S (String.length s)).
    rewrite Nat2Z.inj_succ, Z.pow_succ_r by lia.
    nia.
Qed.

(** The four digits of a year between 1000 and 9999. *)
Lemma numToString_year n :
  1000 <= n <= 9999 ->
  Js.numToString (Some n) =
  String (Js.chr (48 + n / 1000)) (String (Js.chr (48 + n / 100 mod 10))
    (String (Js.chr (48 + n / 10 mod 10)) (String (Js.chr (48 + n mod 10)) EmptyString))).
Proof.
  intros Hn. unfold Js.numToString, Js.digits.
  replace (n <? 0) with false by lia.
  assert (9 <= Z.log2 n) as Hl by (change 9 with (Z.log2 1000); apply Z.log2_le_mono; lia).
  destruct (Z.to_nat (Z.log2 n)) as [|[|[|k]]] eqn:E; try lia.
  simpl.
  replace (n <? 10) with false by lia.
  replace (n / 10 <? 10) with false by zdiv.
  replace (n / 10 / 10 <? 10) with false by zdiv.
  replace (n / 10 / 10 / 10 <? 10) with true by zdiv.
  replace (n / 10 / 10 / 10 mod 10) with (n / 1000) by zdiv.
  replace (n / 10 / 10 mod 10) with (n / 100 mod 10) by zdiv.
  done.
Qed.

Lemma parseInt_digits s :
  all_digits s = true -> s <> EmptyString ->
  Js.parseInt s = Some (Js.read_digits 0 s).
Proof.
  intros Hd Hs. unfold Js.parseInt. rewrite (all_digits_trimStart _ Hd).
  destruct s as [|c r]; [done|]. simpl in Hd. apply andb_prop in Hd as [Hc Hd].
  rewrite (digit_neq c "-" Hc), (digit_neq c "+" Hc) by done.
  simpl. by rewrite Hc.
Qed.

Lemma year_meant_range y : year_field y -> 1000 <= year_meant y <= 9999.
Proof.
  intros [Hd Hl]. unfold year_meant.
  pose proof (read_digits_bounds y 0 Hd ltac:(lia)) as Hb.
  destruct Hl as [E|[E Hy]]; rewrite E in *; simpl in *; lia.
Qed.

Lemma year_of_field_meant y : year_field y -> year_of_field y = Some (year_meant y).
Proof.
  intros [Hd Hl]. unfold year_of_field, year_meant.
  rewrite parseInt_digits; [|done|by destruct y, Hl as [?|[? ?]]].
  by destruct (_ =? _)%nat.
Qed.

(** *** parseDDMMYY *)

Section Fechas.
Context `{JsEngine}.

Lemma parseDDMMYY_four d m y rest :
  Js.split "/" d = [d] -> Js.split "/" m = [m] -> Js.split "/" y = [y] ->
  parseDDMMYY (Some (d +:+ "/" +:+ m +:+ "/" +:+ y +:+ "/" +:+ rest)) =
  date_of_fields (Js.trimStart d) m y.
Proof.
  intros Hd Hm Hy. unfold parseDDMMYY.
  change (d +:+ "/" +:+ m +:+ "/" +:+ y +:+ "/" +:+ rest)
    with (d +:+ String "/" (m +:+ "/" +:+ y +:+ "/" +:+ rest)) at 1.
  rewrite truthy_app_sep. simpl negb. cbv iota zeta.
  rewrite split_trim_four by done.
  destruct (Js.split "/" (Js.trimEnd rest)) eqn:E; [by apply split_not_nil in E|].
  done.
Qed.

Lemma parseDDMMYY_three d m y :
  Js.split "/" d = [d] -> Js.split "/" m = [m] -> Js.split "/" y = [y] ->
  parseDDMMYY (Some (d +:+ "/" +:+ m +:+ "/" +:+ y)) =
  date_of_fields (Js.trimStart d) m (Js.trimEnd y).
Proof.
  intros Hd Hm Hy. unfold parseDDMMYY.
  change (d +:+ "/" +:+ m +:+ "/" +:+ y)
    with (d +:+ String "/" (m +:+ "/" +:+ y)) at 1.
  rewrite truthy_app_sep. simpl negb. cbv iota zeta.
  by rewrite split_trim_three.
Qed.

Lemma parseDDMMYY_part000_four d m y rest :
  Js.split "/" d = [d] -> Js.split "/" m = [m] -> Js.split "/" y = [y] ->
  Part000.parseDDMMYY (Some (d +:+ "/" +:+ m +:+ "/" +:+ y +:+ "/" +:+ rest)) =
  if Js.truthy (Js.trimStart d) && Js.truthy m && Js.truthy y
  then date_of_fields (Js.trimStart d) m y else None.
Proof.
  intros Hd Hm Hy. unfold Part000.parseDDMMYY.
  change (d +:+ "/" +:+ m +:+ "/" +:+ y +:+ "/" +:+ rest)
    with (d +:+ String "/" (m +:+ "/" +:+ y +:+ "/" +:+ rest)) at 1.
  rewrite truthy_app_sep. simpl negb. cbv iota zeta.
  by rewrite split_trim_four.
Qed.

Lemma parseDDMMYY_part000_three d m y :
  Js.split "/" d = [d] -> Js.split "/" m = [m] -> Js.split "/" y = [y] ->
  Part000.parseDDMMYY (Some (d +:+ "/" +:+ m +:+ "/" +:+ y)) =
  if Js.truthy (Js.trimStart d) && Js.truthy m && Js.truthy (Js.trimEnd y)
  then date_of_fields (Js.trimStart d) m (Js.trimEnd y) else None.
Proof.
  intros Hd Hm Hy. unfold Part000.parseDDMMYY.
  change (d +:+ "/" +:+ m +:+ "/" +:+ y)
    with (d +:+ String "/" (m +:+ "/" +:+ y)) at 1.
  rewrite truthy_app_sep. simpl negb. cbv iota zeta.
  by rewrite split_trim_three.
Qed.

Lemma match_ymd_digits a b c e m d :
  Js.is_digit a = true -> Js.is_digit b = true ->
  Js.is_digit c = true -> Js.is_digit e = true ->
  all_digits m = true -> (1 <= String.length m <= 2)%nat ->
  all_digits d = true -> (String.length d <= 2)%nat ->
  match_ymd (String a (String b (String c (String e (String "-" (m +:+ String "-" d)))))) =
  Some (String a (String b (String c (String e EmptyString))), m, d).
Proof.
  intros Ha Hb Hc He Hm Hlm Hd Hld. unfold match_ymd.
  assert (all_digits (String a (String b (String c (String e EmptyString)))) = true) as ->
    by (simpl; by rewrite Ha, Hb, Hc, He).
  rewrite Ascii.eqb_refl. simpl andb. cbv iota.
  rewrite split_field_app by (by apply all_digits_single_field).
  rewrite (all_digits_single_field "-" d) by done.
  rewrite Hm, Hd.
  rewrite !(proj2 (Nat.leb_le _ _)) by lia.
  destruct (String.length m); [lia|done].
Qed.

(** dayjs on the text [YYYY-M-D]: the month and the day may overflow. *)
Lemma dayjs_ymd n m d :
  1000 <= n <= 9999 ->
  all_digits m = true -> (1 <= String.length m <= 2)%nat ->
  all_digits d = true -> (String.length d <= 2)%nat ->
  dayjs (Js.numToString (Some n) +:+ "-" +:+ m +:+ "-" +:+ d) =
  Some (newDate n (Js.read_digits 0 m - 1)
          (if Js.truthy d then Js.read_digits 0 d else 1)).
Proof.
  intros Hn Hm Hlm Hd Hld. rewrite (numToString_year n Hn).
  pose proof (is_digit_chr (n / 1000) ltac:(zdiv)) as [Ha Va].
  pose proof (is_digit_chr (n / 100 mod 10) ltac:(zdiv)) as [Hb Vb].
  pose proof (is_digit_chr (n / 10 mod 10) ltac:(zdiv)) as [Hc Vc].
  pose proof (is_digit_chr (n mod 10) ltac:(zdiv)) as [He Ve].
  unfold dayjs. rewrite !append_cons, !append_nil.
  rewrite match_ymd_digits by done.
  f_equal. f_equal.
  simpl Js.read_digits. rewrite Ha, Hb, Hc, He, Va, Vb, Vc, Ve. zdiv.
Qed.

Lemma MakeDay_month y m d : 1 <= m <= 12 -> MakeDay y (m - 1) d = days_from_civil y m d.
Proof.
  intros Hm. unfold MakeDay.
  rewrite (Z.div_small (m - 1)), (Z.mod_small (m - 1)) by lia.
  rewrite (days_from_civil_day y m d). f_equal. f_equal. f_equal; lia.
Qed.

Lemma calendar_newDate y m d :
  100 <= y -> valid_date y m d -> calendar (newDate y (m - 1) d) = (y, m, d).
Proof.
  intros Hy Hv. unfold calendar, newDate, Day.
  replace ((0 <=? y) && (y <=? 99)) with false by lia.
  rewrite Z.div_mul by done.
  rewrite MakeDay_month by apply Hv. by apply civil_of_days_from_civil.
Qed.

(** A written date of the calendar is read as that date. *)
Lemma date_of_fields_valid d m y :
  day_month_field d -> day_month_field m -> year_field y ->
  valid_date (year_meant y) (Js.read_digits 0 m) (Js.read_digits 0 d) ->
  calendar <$> date_of_fields d m y =
  Some (year_meant y, Js.read_digits 0 m, Js.read_digits 0 d).
Proof.
  intros [Hd Hld] [Hm Hlm] Hy Hv. unfold date_of_fields.
  rewrite (year_of_field_meant y Hy).
  rewrite dayjs_ymd; [|by apply year_meant_range|done|done|done|lia].
  replace (Js.truthy d) with true by (destruct d; [simpl in Hld; lia|done]).
  simpl. f_equal. apply calendar_newDate; [|done].
  pose proof (year_meant_range y Hy). lia.
Qed.

(** Digit fields are read as [new Date] builds them, a date of the
    calendar or not. *)
Lemma date_of_fields_digits d m y :
  all_digits d = true -> (String.length d <= 2)%nat -> day_month_field m -> year_field y ->
  date_of_fields d m y =
  Some (newDate (year_meant y) (Js.read_digits 0 m - 1)
          (if Js.truthy d then Js.read_digits 0 d else 1)).
Proof.
  intros Hd Hld [Hm Hlm] Hy. unfold date_of_fields.
  rewrite (year_of_field_meant y Hy).
  by rewrite dayjs_ymd; [|by apply year_meant_range|..].
Qed.

End Fechas.

(** *** The header map *)

Lemma header_map_lookup headers k :
  header_map headers !! k = None <-> k ∉ normalize_header <$> headers.
Proof.
  unfold header_map. rewrite <- not_elem_of_list_to_map.
  rewrite fmap_reverse, elem_of_reverse.
  rewrite fmap_imap.
  by rewrite (imap_ext _ (const normalize_header) headers), imap_const.
Qed.

Lemma resolve_columns_None headers :
  resolve_columns headers = None <-> field_missing headers.
Proof.
  unfold resolve_columns, field_missing, fecha_column, nullish. cbv zeta.
  rewrite <- !header_map_lookup.
  destruct (header_map headers !! "nombre"), (header_map headers !! "cargo"),
    (header_map headers !! "fecha"), (header_map headers !! "fecha (dd/mm/yy)"),
    (header_map headers !! "fecha(dd/mm/yy)"), (header_map headers !! "enviado");
    intuition congruence.
Qed.

(** *** The log of a pass *)

Lemma app_cons_split {A} (l1 l2 pre post : list A) x :
  l1 ++ l2 = pre ++ x :: post ->
  (exists m, l1 = pre ++ x :: m /\ post = m ++ l2) \/
  (exists m, pre = l1 ++ m /\ l2 = m ++ x :: post).
Proof.
  revert pre. induction l1 as [|a l1 IH]; intros pre E.
  - right. by exists pre.
  - destruct pre as [|b pre]; simplify_eq/=.
    + left. by exists l1.
    + destruct (IH _ H0) as [(m & -> & ->)|(m & -> & ->)].
      * left. by exists m.
      * right. by exists m.
Qed.

Lemma bind_ok {A B} (m : M A) (k : A -> M B) c a evs c' :
  m c = (Ok a, evs, c') ->
  (m ≫= k) c = (let '(r, evs', c'') := k a c' in (r, evs ++ evs', c'')).
Proof. intros E. unfold mbind, M_bind. rewrite E. by destruct (k a c') as [[? ?] ?]. Qed.

Lemma bind_throw {A B} (m : M A) (k : A -> M B) c e evs c' :
  m c = (Throw e, evs, c') -> (m ≫= k) c = (Throw e, evs, c').
Proof. intros E. unfold mbind, M_bind. by rewrite E. Qed.

(** The send loop delivers to every address, or stops at the first call
    that fails and throws its error. *)
Lemma send_all_run w r msg dests c :
  (exists c', send_all w r msg dests c = (Ok tt, sends_ok r msg dests, c')) \/
  (exists pre num post o c',
     dests = pre ++ num :: post /\ o <> Delivered /\
     o = channel w (sends c + length pre)%nat /\
     send_all w r msg dests c =
       (Throw (error_of o), sends_ok r msg pre ++ [ESend r num msg o], c')).
Proof.
  revert c. induction dests as [|num rest IH]; intros c.
  - left. by eexists.
  - simpl send_all.
    destruct (channel w (sends c)) eqn:Eo.
    + assert (sendText w r num msg c =
              (Ok tt, [ESend r num msg Delivered],
               {| sends := S (sends c); writes := writes c |})) as Es
        by (unfold sendText; by rewrite Eo).
      rewrite (bind_ok _ _ _ _ _ _ Es).
      destruct (IH {| sends := S (sends c); writes := writes c |})
        as [[c' E]|(pre & n & post & o & c' & -> & Ho & Hch & E)]; rewrite E.
      * left. by eexists.
      * right. exists (num :: pre), n, post, o, c'.
        split; [done|]. split; [done|]. split; [|done].
        rewrite Hch. simpl. f_equal. lia.
    + right. exists [], num, rest, NotReady, {| sends := S (sends c); writes := writes c |}.
      split; [done|]. split; [done|]. split; [by rewrite Nat.add_0_r|].
      apply bind_throw. unfold sendText. by rewrite Eo.
    + right. exists [], num, rest, (Rejected e), {| sends := S (sends c); writes := writes c |}.
      split; [done|]. split; [done|]. split; [by rewrite Nat.add_0_r|].
      apply bind_throw. unfold sendText. by rewrite Eo.
Qed.

Section Pass.
Context `{JsEngine}.

Lemma send_rows_trace cfg w today cols rows :
  forall idx sent c,
  exists res evs c',
    send_rows cfg w today cols idx rows sent c = (res, evs, c') /\
    loop_trace cfg today cols idx rows evs
      (match res with Ok _ => None | Throw e => Some e end).
Proof.
  induction rows as [|row rest IH]; intros idx sent c.
  - exists (Ok sent), [], c. split; [done|constructor].
  - simpl send_rows.
    destruct (due_fecha (SEND_MODE cfg) today cols row) as [fecha|] eqn:Ed.
    + set (msg := message (nombre_of cols row) (cargo_of cols row) fecha).
      destruct (send_all_run w (idx + 2) msg (DEST_NUMBERS cfg) c)
        as [[c1 E1]|(pre & num & post & o & c1 & Hd & Ho & _ & E1)].
      * rewrite (bind_ok _ _ _ _ _ _ E1).
        destruct (store_write w (writes c1)) as [e|] eqn:Ew.
        -- assert (updateCell w (idx + 2) (iEnviado cols + 1) si c1 =
                   (Throw e, [EWrite (idx + 2) (iEnviado cols + 1) si (Some e)],
                    {| sends := sends c1; writes := S (writes c1) |})) as E2
             by (unfold updateCell; by rewrite Ew).
           rewrite (bind_throw _ _ _ _ _ _ E2).
           do 3 eexists. split; [done|]. by apply lt_write_failed.
        -- assert (updateCell w (idx + 2) (iEnviado cols + 1) si c1 =
                   (Ok tt, [EWrite (idx + 2) (iEnviado cols + 1) si None],
                    {| sends := sends c1; writes := S (writes c1) |})) as E2
             by (unfold updateCell; by rewrite Ew).
           rewrite (bind_ok _ _ _ _ _ _ E2).
           destruct (IH (S idx)
                       (sent ++ [{| s_row := (idx + 2)%nat; s_Nombre := nombre_of cols row |}])
                       {| sends := sends c1; writes := S (writes c1) |})
             as (res & evs & c' & E3 & Ht).
           rewrite E3. do 3 eexists. split; [done|].
           simpl. by apply lt_mark.
      * rewrite (bind_throw _ _ _ _ _ _ E1).
        do 3 eexists. split; [done|]. by eapply lt_send_failed.
    + destruct (IH (S idx) sent c) as (res & evs & c' & E & Ht).
      exists res, evs, c'. split; [done|]. by apply lt_skip.
Qed.

(** What [/send_pending] answers and logs: nothing is logged unless the
    loop runs, and then the log is a loop log and a thrown error is the
    answer. *)
Lemma send_pending_cases cfg w :
  (send_pending cfg w).2 = [] \/
  (exists headers rows cols res,
     DEST_NUMBERS cfg <> [] /\
     sheet w = inr (headers :: rows) /\
     resolve_columns headers = Some cols /\
     loop_trace cfg (now w) cols 0 rows (send_pending cfg w).2 res /\
     match res with
     | Some e => (send_pending cfg w).1 = ErrorBody 500 e
     | None => exists today mode sent n, (send_pending cfg w).1 = SentBody today mode sent n
     end).
Proof.
  unfold send_pending, send_pending_body, handle.
  destruct (DEST_NUMBERS cfg) as [|num ds] eqn:Ed; simpl (length _ =? 0)%nat; cbv iota.
  { by left. }
  unfold readRows. destruct (sheet w) as [e|[|headers rows]] eqn:Es.
  - by left.
  - by left.
  - unfold mbind, M_bind, mret, M_ret. simpl.
    destruct (resolve_columns headers) as [cols|] eqn:Er.
    + destruct (send_rows_trace cfg w (now w) cols rows 0%nat []
                 {| sends := 0; writes := 0 |}) as (res & evs & c' & E & Ht).
      rewrite E. right. exists headers, rows, cols.
      destruct res as [sent|e]; simpl.
      * exists None. rewrite app_nil_r. split_and!; try done. by do 4 eexists.
      * exists (Some e). by split_and!.
    + by left.
Qed.

Lemma sends_ok_elem r msg dests e :
  e ∈ sends_ok r msg dests -> exists num, e = ESend r num msg Delivered.
Proof. unfold sends_ok. intros (num & -> & _)%list_elem_of_fmap. by exists num. Qed.

(** Every logged call belongs to a row that passed the guards. *)
Lemma loop_trace_rows cfg today cols idx rows evs res :
  loop_trace cfg today cols idx rows evs res ->
  forall e, e ∈ evs ->
  exists i row, rows !! i = Some row /\ event_row e = (idx + i + 2)%nat /\
                due_fecha (SEND_MODE cfg) today cols row <> None.
Proof.
  induction 1 as [idx|idx row rest evs res Hd Ht IH|idx row rest fecha evs res Hd Ht IH
                 |idx row rest fecha pre num post o Hd Hdest Ho|idx row rest fecha e0 Hd];
    intros e He.
  - by apply elem_of_nil in He.
  - destruct (IH e He) as (i & r & Hi & Hr & Hdue).
    exists (S i), r. split_and!; [done|lia|done].
  - apply elem_of_app in He as [He|He].
    + apply sends_ok_elem in He as [n ->].
      exists 0%nat, row. split_and!; [done|simpl; lia|congruence].
    + apply elem_of_cons in He as [->|He].
      * exists 0%nat, row. split_and!; [done|simpl; lia|congruence].
      * destruct (IH e He) as (i & r & Hi & Hr & Hdue).
        exists (S i), r. split_and!; [done|lia|done].
  - exists 0%nat, row. split_and!; [done| |congruence].
    apply elem_of_app in He as [He|He].
    + apply sends_ok_elem in He as [n ->]. simpl; lia.
    + apply list_elem_of_singleton in He as ->. simpl; lia.
  - exists 0%nat, row. split_and!; [done| |congruence].
    apply elem_of_app in He as [He|He].
    + apply sends_ok_elem in He as [n ->]. simpl; lia.
    + apply list_elem_of_singleton in He as ->. simpl; lia.
Qed.

(** A write comes right after the successful sends to every address. *)
Lemma loop_trace_write_after_sends cfg today cols idx rows evs res :
  loop_trace cfg today cols idx rows evs res ->
  forall pre r c v o post,
  evs = pre ++ EWrite r c v o :: post ->
  exists pre0 msg, pre = pre0 ++ sends_ok r msg (DEST_NUMBERS cfg).
Proof.
  induction 1 as [idx|idx row rest evs res Hd Ht IH|idx row rest fecha evs res Hd Ht IH
                 |idx row rest fecha pre0 num post0 o0 Hd Hdest Ho|idx row rest fecha e0 Hd];
    intros pre r c v o post E.
  - by destruct pre.
  - by eapply IH.
  - apply app_cons_split in E as [(m & E1 & _)|(m & -> & E2)].
    + assert (EWrite r c v o ∈ sends_ok (idx + 2)
                (message (nombre_of cols row) (cargo_of cols row) fecha) (DEST_NUMBERS cfg))
        as [? ?]%sends_ok_elem by (rewrite E1; apply elem_of_app; right; left).
      done.
    + destruct m as [|x m]; simplify_eq/=.
      * rewrite app_nil_r. by eexists [], _.
      * destruct (IH _ _ _ _ _ _ eq_refl) as (pre1 & msg & ->).
        exists (sends_ok (idx + 2)
                  (message (nombre_of cols row) (cargo_of cols row) fecha)
                  (DEST_NUMBERS cfg)
                ++ EWrite (idx + 2) (iEnviado cols + 1) si None :: pre1), msg.
        by rewrite <- app_assoc.
  - apply app_cons_split in E as [(m & E1 & _)|(m & -> & E2)].
    + assert (EWrite r c v o ∈ sends_ok (idx + 2)
                (message (nombre_of cols row) (cargo_of cols row) fecha) pre0)
        as [? ?]%sends_ok_elem by (rewrite E1; apply elem_of_app; right; left).
      done.
    + destruct m as [|x [|? ?]]; simplify_eq/=.
  - apply app_cons_split in E as [(m & E1 & _)|(m & -> & E2)].
    + assert (EWrite r c v o ∈ sends_ok (idx + 2)
                (message (nombre_of cols row) (cargo_of cols row) fecha) (DEST_NUMBERS cfg))
        as [? ?]%sends_ok_elem by (rewrite E1; apply elem_of_app; right; left).
      done.
    + destruct m as [|x [|? ?]]; simplify_eq/=. rewrite app_nil_r. by eexists [], _.
Qed.

(** A send that fails is the last call of the pass, and its error is the
    error of the pass. *)
Lemma loop_trace_failed_send_last cfg today cols idx rows evs res :
  loop_trace cfg today cols idx rows evs res ->
  forall pre r num msg o post,
  evs = pre ++ ESend r num msg o :: post -> o <> Delivered ->
  post = [] /\ res = Some (error_of o).
Proof.
  induction 1 as [idx|idx row rest evs res Hd Ht IH|idx row rest fecha evs res Hd Ht IH
                 |idx row rest fecha pre0 num0 post0 o0 Hd Hdest Ho|idx row rest fecha e0 Hd];
    intros pre r num msg o post E Hne.
  - by destruct pre.
  - by eapply IH.
  - apply app_cons_split in E as [(m & E1 & _)|(m & -> & E2)].
    + assert (ESend r num msg o ∈ sends_ok (idx + 2)
                (message (nombre_of cols row) (cargo_of cols row) fecha) (DEST_NUMBERS cfg))
        as [? ?]%sends_ok_elem by (rewrite E1; apply elem_of_app; right; left).
      congruence.
    + destruct m as [|x m]; simplify_eq/=. by eapply IH.
  - apply app_cons_split in E as [(m & E1 & _)|(m & -> & E2)].
    + assert (ESend r num msg o ∈ sends_ok (idx + 2)
                (message (nombre_of cols row) (cargo_of cols row) fecha) pre0)
        as [? ?]%sends_ok_elem by (rewrite E1; apply elem_of_app; right; left).
      congruence.
    + destruct m as [|x [|? ?]]; simplify_eq/=. done.
  - apply app_cons_split in E as [(m & E1 & _)|(m & -> & E2)].
    + assert (ESend r num msg o ∈ sends_ok (idx + 2)
                (message (nombre_of cols row) (cargo_of cols row) fecha) (DEST_NUMBERS cfg))
        as [? ?]%sends_ok_elem by (rewrite E1; apply elem_of_app; right; left).
      congruence.
    + destruct m as [|x [|? ?]]; simplify_eq/=.
Qed.

(** The row of a send that fails is not written in the pass. *)
Lemma loop_trace_failed_no_write cfg today cols idx rows evs res :
  loop_trace cfg today cols idx rows evs res ->
  forall r num msg o, ESend r num msg o ∈ evs -> o <> Delivered ->
  forall c v o', EWrite r c v o' ∉ evs.
Proof.
  induction 1 as [idx|idx row rest evs res Hd Ht IH|idx row rest fecha evs res Hd Ht IH
                 |idx row rest fecha pre0 num0 post0 o0 Hd Hdest Ho|idx row rest fecha e0 Hd];
    intros r num msg o Hs Hne c v o' Hw.
  - by apply elem_of_nil in Hs.
  - by eapply IH.
  - apply elem_of_app in Hs as [Hs|Hs];
      [apply sends_ok_elem in Hs as [? ?]; congruence|].
    apply elem_of_cons in Hs as [?|Hs]; [done|].
    destruct (loop_trace_rows _ _ _ _ _ _ _ Ht _ Hs) as (i & ? & _ & Hr & _).
    simpl in Hr.
    apply elem_of_app in Hw as [Hw|Hw];
      [apply sends_ok_elem in Hw as [? ?]; congruence|].
    apply elem_of_cons in Hw as [Hw|Hw]; [simplify_eq; lia|].
    by eapply IH.
  - apply elem_of_app in Hw as [Hw|Hw];
      [apply sends_ok_elem in Hw as [? ?]; congruence|].
    by apply list_elem_of_singleton in Hw.
  - apply elem_of_app in Hs as [Hs|Hs];
      [apply sends_ok_elem in Hs as [? ?]; congruence|].
    by apply list_elem_of_singleton in Hs.
Qed.

End Pass.

(** *** The two handlers *)

Section Handlers.
Context `{JsEngine}.

Lemma preview_eq cfg w :
  preview cfg w =
  match sheet w with
  | inl e => (ErrorBody 500 e, [])
  | inr [] => (PreviewEmpty, [])
  | inr (headers :: rows) =>
      if (length headers =? 0)%nat then (PreviewEmpty, [])
      else match resolve_columns headers with
           | None => (ErrorBody 400 headers_error, [])
           | Some cols =>
               (PreviewBody (format_YYYYMMDD (now_reply w)) (SEND_MODE cfg)
                  (preview_rows (SEND_MODE cfg) (now w) cols 0 rows), [])
           end
  end.
Proof.
  unfold preview, preview_body, handle, readRows.
  destruct (sheet w) as [e|[|headers rows]]; [done|done|].
  unfold mbind, M_bind, mret, M_ret. simpl.
  destruct headers; [done|]. simpl. by destruct (resolve_columns _).
Qed.

Lemma send_pending_no_dest cfg w :
  DEST_NUMBERS cfg = [] -> send_pending cfg w = (ErrorBody 400 dest_error, []).
Proof. intros E. unfold send_pending, send_pending_body, handle. by rewrite E. Qed.

Lemma send_pending_unresolved cfg w headers rows :
  DEST_NUMBERS cfg <> [] ->
  sheet w = inr [] \/ (sheet w = inr (headers :: rows) /\ resolve_columns headers = None) ->
  send_pending cfg w = (ErrorBody 400 headers_error, []).
Proof.
  intros Hd Hs. unfold send_pending, send_pending_body, handle, readRows.
  destruct (DEST_NUMBERS cfg) as [|num ds]; [done|]. simpl (length _ =? 0)%nat. cbv iota.
  destruct Hs as [->|[-> Hr]]; unfold mbind, M_bind, mret, M_ret; simpl; [done|].
  by rewrite Hr.
Qed.

Lemma send_pending_loop cfg w headers rows cols :
  DEST_NUMBERS cfg <> [] ->
  sheet w = inr (headers :: rows) -> resolve_columns headers = Some cols ->
  send_pending cfg w =
  match send_rows cfg w (now w) cols 0 rows [] {| sends := 0; writes := 0 |} with
  | (Ok sent, evs, _) =>
      (SentBody (format_YYYYMMDD (now w)) (SEND_MODE cfg) sent (length sent), evs)
  | (Throw e, evs, _) => (ErrorBody 500 e, evs)
  end.
Proof.
  intros Hd Hs Hr. unfold send_pending, send_pending_body, handle, readRows.
  destruct (DEST_NUMBERS cfg) as [|num ds]; [done|]. simpl (length _ =? 0)%nat. cbv iota.
  rewrite Hs. unfold mbind, M_bind, mret, M_ret. simpl. rewrite Hr.
  destruct (send_rows _ _ _ _ _ _ _ _) as [[[sent|e] evs] c']; [|done].
  by rewrite app_nil_r.
Qed.

(** The rows a preview lists passed the guards. *)
Lemma preview_rows_rows mode today cols rows :
  forall idx p, p ∈ preview_rows mode today cols idx rows ->
  exists i row, rows !! i = Some row /\ p_row p = (idx + i + 2)%nat /\
                due_fecha mode today cols row <> None.
Proof.
  induction rows as [|row rest IH]; intros idx p Hp; [by apply elem_of_nil in Hp|].
  simpl in Hp. destruct (due_fecha mode today cols row) eqn:Ed.
  - apply elem_of_cons in Hp as [->|Hp].
    + exists 0%nat, row. split_and!; [done|simpl; lia|congruence].
    + destruct (IH _ _ Hp) as (i & r & Hi & Hr & Hdue).
      exists (S i), r. split_and!; [done|lia|done].
  - destruct (IH _ _ Hp) as (i & r & Hi & Hr & Hdue).
    exists (S i), r. split_and!; [done|lia|done].
Qed.

(** When the first [sendText] call fails and a row is due, that call is
    all the pass does. *)
Lemma send_rows_first_fails cfg w today cols num ds rows :
  DEST_NUMBERS cfg = num :: ds -> channel w 0 <> Delivered ->
  forall idx sent c, sends c = 0%nat ->
  preview_rows (SEND_MODE cfg) today cols idx rows <> [] ->
  exists r msg c',
    send_rows cfg w today cols idx rows sent c =
    (Throw (error_of (channel w 0)), [ESend r num msg (channel w 0)], c').
Proof.
  intros Hd Hch. induction rows as [|row rest IH]; intros idx sent c Hc Hne; [done|].
  simpl in Hne. simpl send_rows.
  destruct (due_fecha (SEND_MODE cfg) today cols row) as [fecha|] eqn:Ed.
  - rewrite Hd. simpl send_all.
    assert (sendText w (idx + 2) num
              (message (nombre_of cols row) (cargo_of cols row) fecha) c =
            (Throw (error_of (channel w 0)),
             [ESend (idx + 2) num
                (message (nombre_of cols row) (cargo_of cols row) fecha) (channel w 0)],
             {| sends := S (sends c); writes := writes c |})) as Es.
    { unfold sendText. rewrite Hc. by destruct (channel w 0). }
    do 3 eexists. apply bind_throw. by apply bind_throw.
  - by apply IH.
Qed.

End Handlers.

(** *** The sent marker *)

Lemma lower_char_s c : Js.lower_char c = "s"%char <-> c = "s"%char \/ c = "S"%char.
Proof.
  split; [|by intros [-> | ->]].
  destruct c as [[] [] [] [] [] [] [] []]; vm_compute; intros E;
    first [discriminate E | by left | by right].
Qed.

Lemma lower_char_i_acute c :
  Js.lower_char c = Js.chr 237 <-> c = Js.chr 237 \/ c = Js.chr 205.
Proof.
  split; [|by intros [-> | ->]].
  destruct c as [[] [] [] [] [] [] [] []]; vm_compute; intros E;
    first [discriminate E | by left | by right].
Qed.

(** Lower-casing gives the sent marker exactly on its four letter cases. *)
Lemma toLowerCase_si s : Js.toLowerCase s = si <-> s ∈ si_cases.
Proof.
  unfold si_cases, si. rewrite !elem_of_cons, elem_of_nil. split.
  - destruct s as [|a [|b [|? ?]]]; simpl; try done.
    intros [= [-> | ->]%lower_char_s [-> | ->]%lower_char_i_acute]; tauto.
  - by intros [->|[->|[->|[->|[]]]]].
Qed.

(** *** The scenarios of the specification, evaluated *)

Example trim_nbsp : Js.trim (String (Js.chr 160) "  a b  ") = "a b".
Proof. reflexivity. Qed.

Example split_fields : Js.split "/" "1/6/25/extra" = ["1"; "6"; "25"; "extra"].
Proof. reflexivity. Qed.

Example parseInt_prefix :
  Js.parseInt " 25x" = Some 25 /\ Js.parseInt "-5" = Some (-5) /\
  Js.parseInt "x1" = None /\ Js.parseInt "" = None.
Proof. split_and!; reflexivity. Qed.

Example config_from_env :
  config_of_env (Some " 521, ,522 ,") (Some "Until_Today") =
  {| DEST_NUMBERS := ["521"; "522"]; SEND_MODE := "until_today" |} /\
  config_of_env None None = {| DEST_NUMBERS := []; SEND_MODE := "today" |}.
Proof. split; reflexivity. Qed.

Example later_column_wins :
  header_map ["Fecha"; " FECHA "; "Nombre"] !! "fecha" = Some 1%nat.
Proof. vm_compute. reflexivity. Qed.

(** Scenario A: one send, then [updateCell(2, 4, marker)], and one row sent. *)
Example scenario_A :
  @send_pending plain_engine one_dest (world_of sheet_A (λ _, Delivered)) =
  (SentBody "2025-06-01" "today" [{| s_row := 2; s_Nombre := "Ana" |}] 1,
   [ESend 2 "5215500000001" (message "Ana" "Jefa" (newDate 2025 5 1)) Delivered;
    EWrite 2 4 si None]) /\
  @preview plain_engine one_dest (world_of sheet_A (λ _, Delivered)) =
  (PreviewBody "2025-06-01" "today"
     [{| p_row := 2; p_Nombre := "Ana"; p_Cargo := "Jefa"; p_Fecha := "01/06/2025" |}],
   []).
Proof. split; vm_compute; reflexivity. Qed.

(** Scenario C: the row is marked sent, nothing is due and no gateway is called. *)
Example scenario_C :
  @send_pending plain_engine one_dest (world_of sheet_C (λ _, Delivered)) =
  (SentBody "2025-06-01" "today" [] 0, []).
Proof. vm_compute. reflexivity. Qed.

(** Reference date 10 June 2025 under "until_today": 1 May is due, 11 June is not. *)
Example until_today_june_10 :
  cond "until_today" (newDate 2025 4 1) (newDate 2025 5 10 + 1) = true /\
  cond "until_today" (newDate 2025 5 11) (newDate 2025 5 10 + 1) = false.
Proof. split; reflexivity. Qed.

(** * The claims *)

(** ** C1 *)

(** C1. In a pass of [/send_pending] the write of the sent marker on a
    record's row is logged only right after the successful sends of that
    record's text to every configured address, in their order; a row one
    of whose sends failed is not written in that pass; and when the very
    first send of the pass fails (scenario B: one record, one address,
    the send fails) the store is not written at all. *)
Theorem marked_only_after_all_sends `{JsEngine} (cfg : Config) (w : World) :
  (forall pre r c v o post,
     (send_pending cfg w).2 = pre ++ EWrite r c v o :: post ->
     exists pre0 msg, pre = pre0 ++ sends_ok r msg (DEST_NUMBERS cfg)) /\
  (forall r num msg o,
     ESend r num msg o ∈ (send_pending cfg w).2 -> o <> Delivered ->
     forall c v o', EWrite r c v o' ∉ (send_pending cfg w).2) /\
  (channel w 0 <> Delivered ->
   forall e, e ∈ (send_pending cfg w).2 -> ~ is_write e).
Proof.
  split_and!.
  - intros pre r c v o post E.
    destruct (send_pending_cases cfg w) as [E0|(hs & rows & cols & res & _ & _ & _ & Ht & _)].
    + rewrite E0 in E. by destruct pre.
    + by eapply loop_trace_write_after_sends.
  - intros r num msg o Hs Ho.
    destruct (send_pending_cases cfg w) as [E0|(hs & rows & cols & res & _ & _ & _ & Ht & _)].
    + rewrite E0 in Hs. by apply elem_of_nil in Hs.
    + by eapply loop_trace_failed_no_write.
  - intros Hch e He.
    destruct (DEST_NUMBERS cfg) as [|num ds] eqn:Ed.
    { rewrite send_pending_no_dest in He by done. by apply elem_of_nil in He. }
    destruct (sheet w) as [err|[|headers rows]] eqn:Es.
    + unfold send_pending, send_pending_body, handle, readRows in He.
      rewrite Ed, Es in He. by apply elem_of_nil in He.
    + rewrite (send_pending_unresolved cfg w [] []) in He; [|by rewrite Ed|by left].
      by apply elem_of_nil in He.
    + destruct (resolve_columns headers) as [cols|] eqn:Er.
      * rewrite (send_pending_loop cfg w headers rows cols) in He; [|by rewrite Ed|done|done].
        destruct (preview_rows (SEND_MODE cfg) (now w) cols 0 rows) as [|p ps] eqn:Ep.
        -- destruct (send_rows_trace cfg w (now w) cols rows 0%nat []
                       {| sends := 0; writes := 0 |}) as (res & evs & c' & E & Ht).
           rewrite E in He.
           assert (e ∈ evs) as He' by (by destruct res).
           destruct (loop_trace_rows _ _ _ _ _ _ _ Ht _ He') as (i & row & Hi & _ & Hdue).
           exfalso. clear -Ep Hi Hdue.
           revert Ep Hi. generalize 0%nat. revert i.
           induction rows as [|r0 rest IH]; intros i n Ep Hi; [done|].
           simpl in Ep. destruct i as [|i]; simplify_eq/=.
           ++ by destruct (due_fecha _ _ _ _).
           ++ destruct (due_fecha _ _ _ r0); [done|]. by eapply IH.
        -- destruct (send_rows_first_fails cfg w (now w) cols num ds rows Ed Hch
                       0%nat [] {| sends := 0; writes := 0 |} eq_refl)
             as (r & msg & c' & E); [by rewrite Ep|].
           rewrite E in He. simpl in He.
           apply list_elem_of_singleton in He as ->. by intros [].
      * rewrite (send_pending_unresolved cfg w headers rows) in He;
          [|by rewrite Ed|by right].
        by apply elem_of_nil in He.
Qed.

(** Scenario B on the sheet of scenario A: the only send is rejected and
    row 2 is not written. *)
Lemma marked_only_after_all_sends_witness :
  ESend 2 "5215500000001"
    (message "Ana" "Jefa" (newDate 2025 5 1)) (Rejected "timeout")
    ∈ (@send_pending plain_engine one_dest (world_of sheet_A first_rejected)).2 /\
  EWrite 2 4 si None
    ∉ (@send_pending plain_engine one_dest (world_of sheet_A first_rejected)).2.
Proof.
  assert (ESend 2 "5215500000001"
            (message "Ana" "Jefa" (newDate 2025 5 1)) (Rejected "timeout")
          ∈ (@send_pending plain_engine one_dest (world_of sheet_A first_rejected)).2)
    as Hin by (vm_compute; left).
  split; [exact Hin|].
  refine (proj1 (proj2 (@marked_only_after_all_sends plain_engine one_dest
                          (world_of sheet_A first_rejected))) _ _ _ _ Hin _ _ _ _).
  discriminate.
Defined.

(** ** C2 *)

(** Counterexample to C2: with two addresses and two due records, the
    rejection of the first send is the only gateway call of the pass; the
    second address and the second record get no send, and the answer is
    the bare error. *)
Lemma send_failure_stops_everything :
  @send_pending plain_engine two_dests (world_of sheet_two first_rejected) =
  (ErrorBody 500 "timeout",
   [ESend 2 "5215500000001" (message "Ana" "Jefa" (newDate 2025 5 1)) (Rejected "timeout")]).
Proof. vm_compute. reflexivity. Qed.

(** C2, amended. A send that fails is the last gateway call of the pass:
    no send to the remaining addresses of that record and no work on the
    following records comes after it, and the caller gets the answer 500
    with the message of that failure. *)
Theorem send_failure_ends_pass `{JsEngine} (cfg : Config) (w : World)
    pre r num msg o post :
  (send_pending cfg w).2 = pre ++ ESend r num msg o :: post ->
  o <> Delivered ->
  post = [] /\ (send_pending cfg w).1 = ErrorBody 500 (error_of o).
Proof.
  intros E Ho.
  destruct (send_pending_cases cfg w) as [E0|(hs & rows & cols & res & _ & _ & _ & Ht & Hres)].
  - rewrite E0 in E. by destruct pre.
  - destruct (loop_trace_failed_send_last _ _ _ _ _ _ _ Ht _ _ _ _ _ _ E Ho) as [-> ->].
    done.
Qed.

Lemma send_failure_ends_pass_witness :
  (@send_pending plain_engine two_dests (world_of sheet_two first_rejected)).1 =
  ErrorBody 500 "timeout".
Proof.
  refine (proj2 (@send_failure_ends_pass plain_engine two_dests
                   (world_of sheet_two first_rejected) [] 2%nat "5215500000001"
                   (message "Ana" "Jefa" (newDate 2025 5 1)) (Rejected "timeout") [] _ _)).
  - vm_compute. reflexivity.
  - discriminate.
Defined.

(** ** C3 *)

(** Counterexample to C3: under the unknown mode "weekly" a record dated
    31 May 2025 is due on 1 June 2025, a different calendar day; under
    "today" it is not. *)
Lemma unknown_mode_is_not_today :
  cond "weekly" (newDate 2025 4 31) june_1 = true /\
  cond "today" (newDate 2025 4 31) june_1 = false /\
  calendar (newDate 2025 4 31) <> calendar june_1.
Proof. vm_compute. split_and!; [reflexivity|reflexivity|discriminate]. Qed.

(** C3, amended. Under a mode that is neither "today" nor "until_today"
    the test behaves as under "until_today": the record is due iff its
    date is on or before the reference date. *)
Theorem unknown_mode_is_until_today (mode : string) (fecha today : Z) :
  mode <> "today" -> mode <> "until_today" ->
  cond mode fecha today = cond "until_today" fecha today /\
  (cond mode fecha today = true <-> date_le (calendar fecha) (calendar today)).
Proof.
  intros Hm _. split; [|by apply cond_other].
  unfold cond. by destruct (String.eqb_spec mode "today").
Qed.

Lemma unknown_mode_is_until_today_witness :
  cond "weekly" (newDate 2025 4 31) june_1 =
  cond "until_today" (newDate 2025 4 31) june_1.
Proof.
  refine (proj1 (unknown_mode_is_until_today "weekly" (newDate 2025 4 31) june_1 _ _));
    discriminate.
Defined.

(** ** C4 *)

(** C4. Under "today" the test holds iff the record's date and the
    reference date are the same year, month and day; under "until_today"
    it holds iff the record's date is on or before the reference date,
    that is strictly before the day after it. *)
Theorem due_test_of_modes (fecha today : Z) :
  (cond "today" fecha today = true <-> calendar fecha = calendar today) /\
  (cond "until_today" fecha today = true <->
   date_le (calendar fecha) (calendar today)) /\
  (cond "until_today" fecha today = true <->
   date_lt (calendar fecha) (calendar (addDay today))).
Proof.
  split_and!.
  - apply cond_today.
  - by apply cond_other.
  - unfold cond, calendar. simpl. rewrite isBefore_addDay, Day_addDay.
    rewrite <- civil_from_days_lt_iff. lia.
Qed.

(** ** C5 *)

(** On any engine, 31 February 2024 is read as 2 March 2024: the text
    handed to dayjs is [2024-02-31] and the day overflows the month. *)
Lemma parseDDMMYY_feb_31 `{JsEngine} :
  parseDDMMYY (Some "31/02/2024") = Some (newDate 2024 1 31) /\
  Part000.parseDDMMYY (Some "31/02/2024") = Some (newDate 2024 1 31).
Proof. split; reflexivity. Qed.

(** Counterexample to C5: a date that is not of the calendar and a text
    with a fourth field are both read as dates, by either version. *)
Lemma invalid_and_overlong_dates_accepted :
  calendar <$> @parseDDMMYY plain_engine (Some "31/02/2024") = Some (2024, 3, 2) /\
  calendar <$> @Part000.parseDDMMYY plain_engine (Some "31/02/2024") = Some (2024, 3, 2) /\
  calendar <$> @parseDDMMYY plain_engine (Some "1/6/25/extra") = Some (2025, 6, 1) /\
  calendar <$> @Part000.parseDDMMYY plain_engine (Some "1/6/25/extra") = Some (2025, 6, 1).
Proof. vm_compute. split_and!; reflexivity. Qed.

(** C5, amended. A text D/M/Y of digits (D and M of one or two, Y of two,
    or of four not starting with 0) that names a date of the calendar is
    read as that date, in year 2000+Y for two digits and in year Y for
    four; an undefined or empty cell and any text with fewer than three
    fields between slashes, such as "10-5-24", give null.  Both versions
    of [parseDDMMYY] are total functions: none of them raises. *)
Theorem parseDDMMYY_dates_and_nulls `{JsEngine} (d m y s : string) :
  day_month_field d -> day_month_field m -> year_field y ->
  valid_date (year_meant y) (Js.read_digits 0 m) (Js.read_digits 0 d) ->
  (length (Js.split "/" (Js.trim s)) < 3)%nat ->
  calendar <$> parseDDMMYY (Some (d +:+ "/" +:+ m +:+ "/" +:+ y)) =
    Some (year_meant y, Js.read_digits 0 m, Js.read_digits 0 d) /\
  calendar <$> Part000.parseDDMMYY (Some (d +:+ "/" +:+ m +:+ "/" +:+ y)) =
    Some (year_meant y, Js.read_digits 0 m, Js.read_digits 0 d) /\
  parseDDMMYY (Some s) = None /\ Part000.parseDDMMYY (Some s) = None /\
  parseDDMMYY (Some "10-5-24") = None /\ Part000.parseDDMMYY (Some "10-5-24") = None /\
  parseDDMMYY (Some "") = None /\ Part000.parseDDMMYY (Some "") = None /\
  parseDDMMYY None = None /\ Part000.parseDDMMYY None = None.
Proof.
  intros Hd Hm Hy Hv Hs.
  assert (Js.split "/" d = [d] /\ Js.split "/" m = [m] /\ Js.split "/" y = [y])
    as (Sd & Sm & Sy)
    by (split_and!; apply all_digits_single_field; first [done | apply Hd | apply Hm | apply Hy]).
  assert (Js.trimStart d = d) as Td by (apply all_digits_trimStart, Hd).
  assert (Js.trimEnd y = y) as Ty by (apply all_digits_trimEnd, Hy).
  split_and!; try reflexivity.
  - rewrite parseDDMMYY_three, Td, Ty by done. by apply date_of_fields_valid.
  - rewrite parseDDMMYY_part000_three, Td, Ty by done.
    replace (Js.truthy d) with true by (destruct d, Hd as [_ ?]; [simpl in *; lia|done]).
    replace (Js.truthy m) with true by (destruct m, Hm as [_ ?]; [simpl in *; lia|done]).
    replace (Js.truthy y) with true
      by (destruct y, Hy as [_ [?|[? ?]]]; simpl in *; done).
    by apply date_of_fields_valid.
  - unfold parseDDMMYY. destruct (Js.truthy s); [|done]. simpl.
    by rewrite (proj2 (Nat.ltb_lt _ _) Hs).
  - unfold Part000.parseDDMMYY. destruct (Js.truthy s); [|done]. simpl.
    destruct (Js.split "/" (Js.trim s)) as [|a [|b [|c l]]]; simpl in *; try done. lia.
Qed.

Lemma parseDDMMYY_dates_and_nulls_witness :
  calendar <$> @parseDDMMYY plain_engine (Some "1/6/25") = Some (2025, 6, 1) /\
  @parseDDMMYY plain_engine (Some " 7-8-2024 ") = None.
Proof.
  assert (day_month_field "1") as H1 by (split; [reflexivity|simpl; lia]).
  assert (day_month_field "6") as H6 by (split; [reflexivity|simpl; lia]).
  assert (year_field "25") as H25 by (split; [reflexivity|left; reflexivity]).
  assert (valid_date (year_meant "25") (Js.read_digits 0 "6") (Js.read_digits 0 "1")) as Hv
    by (split; vm_compute; split; discriminate).
  assert (length (Js.split "/" (Js.trim " 7-8-2024 ")) < 3)%nat as Hs by (vm_compute; lia).
  pose proof (@parseDDMMYY_dates_and_nulls plain_engine "1" "6" "25" " 7-8-2024 "
                H1 H6 H25 Hv Hs) as (Ha & _ & Hb & _).
  exact (conj Ha Hb).
Defined.

(** ** C6 *)

(** C6. A record whose date does not parse is left out of the due set
    whatever its sent flag, and so is a record whose sent flag, trimmed
    and lower-cased, is the sent marker, whatever its date; the flag
    normalizes to the marker exactly when the trimmed cell is the marker
    in one of its four letter cases.  Such a record is not listed by
    [/preview] and no send or write of [/send_pending] is for its row. *)
Theorem unparsed_or_sent_never_due `{JsEngine} (cfg : Config) (w : World)
    headers rows cols (idx : nat) (row : list string) :
  sheet w = inr (headers :: rows) ->
  resolve_columns headers = Some cols ->
  rows !! idx = Some row ->
  fecha_of cols row = None \/ enviado_of cols row = si ->
  ((idx + 2)%nat ∉ due_rows cfg w) /\
  (forall p, p ∈ to_send_of (preview cfg w).1 -> p_row p <> (idx + 2)%nat) /\
  (forall e, e ∈ (send_pending cfg w).2 -> event_row e <> (idx + 2)%nat) /\
  (enviado_of cols row = si <->
   exists cell, row !! iEnviado cols = Some cell /\ Js.trim cell ∈ si_cases).
Proof.
  intros Hs Hr Hrow Hex.
  assert (due_fecha (SEND_MODE cfg) (now w) cols row = None) as Hnone.
  { unfold due_fecha. destruct Hex as [-> | ->]; [done|].
    destruct (fecha_of cols row); [|done]. by rewrite String.eqb_refl. }
  assert (forall p, p ∈ preview_rows (SEND_MODE cfg) (now w) cols 0 rows ->
                    p_row p <> (idx + 2)%nat) as Hprev.
  { intros p Hp E.
    destruct (preview_rows_rows _ _ _ _ _ _ Hp) as (i & r & Hi & Hn & Hdue).
    assert (i = idx) as -> by lia. congruence. }
  split_and!.
  - unfold due_rows. rewrite Hs, Hr.
    intros (p & E & Hp)%list_elem_of_fmap. by apply (Hprev p).
  - intros p. rewrite preview_eq, Hs.
    destruct headers; [simpl; by intros ?%elem_of_nil|]. simpl.
    rewrite Hr. simpl. apply Hprev.
  - intros e He E.
    destruct (send_pending_cases cfg w)
      as [E0|(hs & rows' & cols' & res & _ & Hs' & Hr' & Ht & _)].
    + rewrite E0 in He. by apply elem_of_nil in He.
    + rewrite Hs in Hs'. simplify_eq.
      destruct (loop_trace_rows _ _ _ _ _ _ _ Ht _ He) as (i & r & Hi & Hn & Hdue).
      assert (i = idx) as -> by lia. congruence.
  - unfold enviado_of. rewrite toLowerCase_si. split.
    + intros Hin. destruct (row !! iEnviado cols) as [cell|] eqn:Ec; simpl in Hin.
      * destruct cell; [|by eexists].
        by apply toLowerCase_si in Hin.
      * by apply toLowerCase_si in Hin.
    + intros (cell & -> & Hin). simpl. destruct cell; [|done].
      by apply toLowerCase_si in Hin.
Qed.

(** On the sheet of scenario A with "SÍ" in the sent column, row 2 is not due. *)
Lemma unparsed_or_sent_never_due_witness :
  2%nat ∉ @due_rows plain_engine one_dest (world_of sheet_C (λ _, Delivered)).
Proof.
  refine (proj1 (@unparsed_or_sent_never_due plain_engine one_dest
                   (world_of sheet_C (λ _, Delivered))
                   headers_A
                   [["Ana"; "Jefa"; "01/06/25"; String "S" (String (Js.chr 205) EmptyString)]]
                   {| iNombre := 0; iCargo := 1; iFecha := 2; iEnviado := 3 |}
                   0%nat
                   ["Ana"; "Jefa"; "01/06/25"; String "S" (String (Js.chr 205) EmptyString)]
                   eq_refl _ eq_refl _)).
  - vm_compute. reflexivity.
  - right. vm_compute. reflexivity.
Defined.

(** ** C7 *)

(** Counterexample to C7: above a data row, a header row without cells
    resolves none of the four fields, yet [/preview] answers an empty
    list, not an error; and with no address configured [/send_pending]
    answers the address error on the sheet of scenario D, whose header
    row lacks "Cargo". *)
Lemma missing_headers_not_always_reported :
  field_missing [] /\
  @preview plain_engine one_dest (world_of sheet_blank_header (λ _, Delivered)) =
    (PreviewEmpty, []) /\
  field_missing ["Nombre"; "Fecha"; "Enviado"] /\
  @send_pending plain_engine no_dest (world_of sheet_D (λ _, Delivered)) =
    (ErrorBody 400 dest_error, []).
Proof.
  split_and!; [|reflexivity| |reflexivity].
  - left. apply not_elem_of_nil.
  - right; left. intros Hin%list_elem_of_In. vm_compute in Hin.
    destruct Hin as [?|[?|[?|[]]]]; discriminate.
Qed.

(** C7, amended. When one of the four fields does not resolve from the
    normalized header row (the date through "fecha" or one of its two
    aliases), [/preview] answers the 400 header error provided the header
    row has a cell, and [/send_pending] answers it provided an address is
    configured; neither logs a send or a write. *)
Theorem missing_headers_abort `{JsEngine} (cfg : Config) (w : World) headers rows :
  sheet w = inr (headers :: rows) ->
  field_missing headers ->
  (headers <> [] -> preview cfg w = (ErrorBody 400 headers_error, [])) /\
  (DEST_NUMBERS cfg <> [] -> send_pending cfg w = (ErrorBody 400 headers_error, [])).
Proof.
  intros Hs Hm. apply resolve_columns_None in Hm. split.
  - intros Hne. rewrite preview_eq, Hs. destruct headers; [done|]. simpl. by rewrite Hm.
  - intros Hd. apply (send_pending_unresolved cfg w headers rows Hd). by right.
Qed.

(** Scenario D. *)
Lemma missing_headers_abort_witness :
  @preview plain_engine one_dest (world_of sheet_D (λ _, Delivered)) =
    (ErrorBody 400 headers_error, []) /\
  @send_pending plain_engine one_dest (world_of sheet_D (λ _, Delivered)) =
    (ErrorBody 400 headers_error, []).
Proof.
  assert (field_missing ["Nombre"; "Fecha"; "Enviado"]) as Hm.
  { right; left. intros Hin%list_elem_of_In. vm_compute in Hin.
    destruct Hin as [?|[?|[?|[]]]]; discriminate. }
  destruct (@missing_headers_abort plain_engine one_dest
              (world_of sheet_D (λ _, Delivered)) _ _ eq_refl Hm) as [Hp Hsnd].
  split; [apply Hp|apply Hsnd]; discriminate.
Defined.

(** ** C8 *)

(** Counterexample to C8: the session is not ready and row 2 is due, but
    no address is configured: the answer is the address error, not the
    not-ready error. *)
Lemma not_ready_without_destinations :
  @due_rows plain_engine no_dest (world_of sheet_A (λ _, NotReady)) = [2%nat] /\
  @send_pending plain_engine no_dest (world_of sheet_A (λ _, NotReady)) =
    (ErrorBody 400 dest_error, []).
Proof. split; vm_compute; reflexivity. Qed.

(** C8, amended. If an address is configured, the due set is not empty
    and the session is not ready when the pass makes its first send, the
    pass ends there with the not-ready error as answer 500: that call is
    the whole log, so no row is written. *)
Theorem not_ready_aborts_pass `{JsEngine} (cfg : Config) (w : World) :
  DEST_NUMBERS cfg <> [] ->
  due_rows cfg w <> [] ->
  channel w 0 = NotReady ->
  (send_pending cfg w).1 = ErrorBody 500 not_ready_message /\
  (exists r num msg, (send_pending cfg w).2 = [ESend r num msg NotReady]) /\
  (forall e, e ∈ (send_pending cfg w).2 -> ~ is_write e).
Proof.
  intros Hd Hdue Hch. unfold due_rows in Hdue.
  destruct (sheet w) as [err|[|headers rows]] eqn:Es; [done|done|].
  destruct (resolve_columns headers) as [cols|] eqn:Er; [|done].
  rewrite (send_pending_loop cfg w headers rows cols Hd Es Er).
  destruct (DEST_NUMBERS cfg) as [|num ds] eqn:Ed; [done|].
  destruct (send_rows_first_fails cfg w (now w) cols num ds rows Ed
              ltac:(by rewrite Hch) 0%nat [] {| sends := 0; writes := 0 |} eq_refl)
    as (r & msg & c' & E).
  { intros E. by rewrite E in Hdue. }
  rewrite E, Hch. simpl. split_and!; [done|by exists r, num, msg|].
  intros e ->%list_elem_of_singleton. by intros [].
Qed.

Lemma not_ready_aborts_pass_witness :
  (@send_pending plain_engine one_dest (world_of sheet_A (λ _, NotReady))).1 =
  ErrorBody 500 not_ready_message.
Proof.
  refine (proj1 (@not_ready_aborts_pass plain_engine one_dest
                   (world_of sheet_A (λ _, NotReady)) _ _ eq_refl)).
  - discriminate.
  - vm_compute. discriminate.
Defined.

(** ** C9 *)

(** Counterexample to C9: on a sheet without rows and with no address
    configured, [/send_pending] answers the address error, not the header
    error. *)
Lemma empty_sheet_without_destinations :
  @send_pending plain_engine no_dest (world_of [] (λ _, Delivered)) =
    (ErrorBody 400 dest_error, []) /\
  dest_error <> headers_error.
Proof. split; [reflexivity|discriminate]. Qed.

(** C9, amended. On a sheet without rows [/preview] answers an empty
    list, where a header row with a cell and a missing field gets the 400
    header error; [/send_pending] has no such shortcut and answers the
    header error, provided an address is configured. *)
Theorem empty_sheet_preview_and_send `{JsEngine} (cfg : Config) (w : World) :
  sheet w = inr [] ->
  preview cfg w = (PreviewEmpty, []) /\
  to_send_of (preview cfg w).1 = [] /\
  (DEST_NUMBERS cfg <> [] -> send_pending cfg w = (ErrorBody 400 headers_error, [])) /\
  (forall w' headers rows,
     sheet w' = inr (headers :: rows) -> headers <> [] -> field_missing headers ->
     preview cfg w' = (ErrorBody 400 headers_error, [])).
Proof.
  intros Hs. split_and!.
  - by rewrite preview_eq, Hs.
  - by rewrite preview_eq, Hs.
  - intros Hd. apply (send_pending_unresolved cfg w [] [] Hd). by left.
  - intros w' headers rows Hs' Hne Hm. apply resolve_columns_None in Hm.
    rewrite preview_eq, Hs'. destruct headers; [done|]. simpl. by rewrite Hm.
Qed.

Lemma empty_sheet_preview_and_send_witness :
  @preview plain_engine one_dest (world_of [] (λ _, Delivered)) = (PreviewEmpty, []) /\
  @send_pending plain_engine one_dest (world_of [] (λ _, Delivered)) =
    (ErrorBody 400 headers_error, []).
Proof.
  destruct (@empty_sheet_preview_and_send plain_engine one_dest
              (world_of [] (λ _, Delivered)) eq_refl) as (Hp & _ & Hsnd & _).
  split; [exact Hp|apply Hsnd; discriminate].
Defined.

(** ** C10 *)

(** C10. A text with more than two slashes is not turned down for its
    extra fields: both versions read the date from the first three
    fields alone, whatever follows the third slash, and so give what they
    give for the three-field text (whose last field ends without white
    space).  When the three fields are digits (day and month of one or
    two digits, year of two digits or of four not starting with 0), the
    date read is the one [new Date] builds from the year, the month and
    the day they write, whatever follows them, and for a date of the
    calendar it falls on the date written; "1/6/25/extra" is read as
    1 June 2025. *)
Theorem extra_fields_ignored `{JsEngine} (d m y rest : string) :
  Js.split "/" d = [d] -> Js.split "/" m = [m] -> Js.split "/" y = [y] ->
  parseDDMMYY (Some (d +:+ "/" +:+ m +:+ "/" +:+ y +:+ "/" +:+ rest)) =
    date_of_fields (Js.trimStart d) m y /\
  Part000.parseDDMMYY (Some (d +:+ "/" +:+ m +:+ "/" +:+ y +:+ "/" +:+ rest)) =
    (if Js.truthy (Js.trimStart d) && Js.truthy m && Js.truthy y
     then date_of_fields (Js.trimStart d) m y else None) /\
  (Js.trimEnd y = y ->
   parseDDMMYY (Some (d +:+ "/" +:+ m +:+ "/" +:+ y +:+ "/" +:+ rest)) =
     parseDDMMYY (Some (d +:+ "/" +:+ m +:+ "/" +:+ y)) /\
   Part000.parseDDMMYY (Some (d +:+ "/" +:+ m +:+ "/" +:+ y +:+ "/" +:+ rest)) =
     Part000.parseDDMMYY (Some (d +:+ "/" +:+ m +:+ "/" +:+ y))) /\
  (day_month_field d -> day_month_field m -> year_field y ->
   let t := newDate (year_meant y) (Js.read_digits 0 m - 1) (Js.read_digits 0 d) in
   parseDDMMYY (Some (d +:+ "/" +:+ m +:+ "/" +:+ y +:+ "/" +:+ rest)) = Some t /\
   Part000.parseDDMMYY (Some (d +:+ "/" +:+ m +:+ "/" +:+ y +:+ "/" +:+ rest)) = Some t /\
   (valid_date (year_meant y) (Js.read_digits 0 m) (Js.read_digits 0 d) ->
    calendar t = (year_meant y, Js.read_digits 0 m, Js.read_digits 0 d))) /\
  calendar <$> parseDDMMYY (Some "1/6/25/extra") = Some (2025, 6, 1) /\
  calendar <$> Part000.parseDDMMYY (Some "1/6/25/extra") = Some (2025, 6, 1).
Proof.
  intros Hd Hm Hy. split_and!; try reflexivity.
  - by apply parseDDMMYY_four.
  - by apply parseDDMMYY_part000_four.
  - intros Hty. rewrite parseDDMMYY_four, parseDDMMYY_three by done.
    rewrite parseDDMMYY_part000_four, parseDDMMYY_part000_three by done.
    by rewrite Hty.
  - intros [Hdd Hld] [Hmd Hlm] Hyf. cbv zeta.
    rewrite parseDDMMYY_four, parseDDMMYY_part000_four by done.
    rewrite (all_digits_trimStart d Hdd).
    rewrite date_of_fields_digits; [|done|lia|done|done].
    assert (Js.truthy d = true) as -> by (destruct d; [simpl in Hld; lia|done]).
    assert (Js.truthy m = true) as -> by (destruct m; [simpl in Hlm; lia|done]).
    assert (Js.truthy y = true) as ->
      by (destruct y; [by destruct Hyf as [_ [?|[? _]]]|done]).
    split_and!; [done|done|].
    intros Hv. apply calendar_newDate; [|done].
    pose proof (year_meant_range y Hyf). lia.
Qed.

(** What follows the third slash changes nothing, and the fields are
    read as written: 15 August 2024. *)
Lemma extra_fields_ignored_witness :
  @parseDDMMYY plain_engine (Some "15/8/2024/x/y") =
    @parseDDMMYY plain_engine (Some "15/8/2024") /\
  @parseDDMMYY plain_engine (Some "15/8/2024/x/y") = Some (newDate 2024 7 15) /\
  @Part000.parseDDMMYY plain_engine (Some "15/8/2024/x/y") = Some (newDate 2024 7 15) /\
  calendar (newDate 2024 7 15) = (2024, 8, 15).
Proof.
  assert (day_month_field "15") as H15 by (split; [reflexivity|simpl; lia]).
  assert (day_month_field "8") as H8 by (split; [reflexivity|simpl; lia]).
  assert (year_field "2024") as H2024
    by (split; [reflexivity|right; split; [reflexivity|vm_compute; discriminate]]).
  assert (valid_date (year_meant "2024") (Js.read_digits 0 "8") (Js.read_digits 0 "15")) as Hv
    by (split; vm_compute; split; discriminate).
  pose proof (@extra_fields_ignored plain_engine "15" "8" "2024" "x/y" eq_refl eq_refl eq_refl)
    as (_ & _ & H3 & H4 & _).
  destruct (H4 H15 H8 H2024) as (Ha & Hb & Hc).
  exact (conj (proj1 (H3 eq_refl)) (conj Ha (conj Hb (Hc Hv)))).
Defined.

(** * Further properties: addresses, session, dates and the pass as a whole *)

(** *** Cell addresses *)

Lemma code_chr k : 0 <= k < 256 -> Js.code (Js.chr k) = k.
Proof.
  intros Hk. unfold Js.code, Js.chr.
  rewrite N_ascii_embedding by lia. lia.
Qed.

Lemma colToA1_loop_pos n s :
  0 < n ->
  colToA1_loop n s =
  colToA1_loop ((n - 1) / 26) (String (Js.chr (65 + (n - 1) mod 26)) s).
Proof. intros Hn. rewrite colToA1_loop_equation_1. by destruct (decide (0 < n)). Qed.

Lemma colToA1_loop_nonpos n s : n <= 0 -> colToA1_loop n s = s.
Proof.
  intros Hn. rewrite colToA1_loop_equation_1.
  destruct (decide (0 < n)); [lia|done].
Qed.

Lemma append_assoc (a b c : string) : (a +:+ b) +:+ c = a +:+ (b +:+ c).
Proof. induction a as [|x a IH]; [done|]. rewrite !append_cons. by rewrite IH. Qed.

(** The letters found so far stay at the end. *)
Lemma colToA1_loop_app n s : colToA1_loop n s = colToA1 n +:+ s.
Proof.
  destruct (decide (n <= 0)) as [Hn|Hn].
  { unfold colToA1. by rewrite !colToA1_loop_nonpos. }
  assert (0 <= n) as H0 by lia. clear Hn. revert s.
  pattern n. apply Z_lt_induction; [|done]. clear n H0.
  intros n IH s.
  destruct (decide (0 < n)) as [Hn|Hn].
  - unfold colToA1. rewrite !(colToA1_loop_pos n) by done.
    assert (0 <= (n - 1) / 26 < n) as Hq by zdiv.
    rewrite (IH _ Hq (String _ s)), (IH _ Hq (String _ EmptyString)).
    by rewrite append_assoc.
  - unfold colToA1. by rewrite !colToA1_loop_nonpos by lia.
Qed.

Lemma colToA1_pos n :
  0 < n ->
  colToA1 n = colToA1 ((n - 1) / 26) +:+ String (Js.chr (65 + (n - 1) mod 26)) EmptyString.
Proof.
  intros Hn. unfold colToA1 at 1. rewrite colToA1_loop_pos by done.
  apply colToA1_loop_app.
Qed.

Lemma colToA1_nonpos n : n <= 0 -> colToA1 n = EmptyString.
Proof. intros Hn. unfold colToA1. by apply colToA1_loop_nonpos. Qed.

Lemma a1_value_app acc a b : a1_value acc (a +:+ b) = a1_value (a1_value acc a) b.
Proof. revert acc. induction a as [|c a IH]; intros acc; [done|]. rewrite append_cons. simpl. apply IH. Qed.

Lemma a1_value_colToA1 n : 0 <= n -> a1_value 0 (colToA1 n) = n.
Proof.
  intros H0. generalize H0. pattern n. apply Z_lt_induction; [|done].
  clear n H0. intros n IH H0.
  destruct (decide (0 < n)) as [Hn|Hn].
  - rewrite colToA1_pos by done. rewrite a1_value_app.
    rewrite IH by zdiv. cbn [a1_value]. rewrite code_chr by zdiv. zdiv.
  - rewrite colToA1_nonpos by lia. simpl. lia.
Qed.

Lemma all_capitals_app a b :
  all_capitals (a +:+ b) = all_capitals a && all_capitals b.
Proof.
  induction a as [|c a IH]; [done|]. rewrite append_cons. simpl.
  rewrite IH. by rewrite andb_assoc.
Qed.

Lemma is_capital_chr k : 0 <= k < 26 -> is_capital (Js.chr (65 + k)) = true.
Proof. intros Hk. unfold is_capital. rewrite code_chr by lia. lia. Qed.

Lemma all_capitals_colToA1 n : all_capitals (colToA1 n) = true.
Proof.
  destruct (decide (n <= 0)) as [Hn|Hn]; [by rewrite colToA1_nonpos|].
  assert (0 <= n) as H0 by lia. clear Hn.
  pattern n. apply Z_lt_induction; [|done]. clear n H0. intros n IH.
  destruct (decide (0 < n)) as [Hn|Hn]; [|by rewrite colToA1_nonpos by lia].
  rewrite colToA1_pos by done. rewrite all_capitals_app, IH by zdiv.
  simpl. rewrite is_capital_chr by zdiv. done.
Qed.

Lemma length_append (a b : string) :
  String.length (a +:+ b) = (String.length a + String.length b)%nat.
Proof. induction a as [|c a IH]; [done|]. rewrite append_cons. simpl. by rewrite IH. Qed.

Lemma colToA1_empty n : colToA1 n = EmptyString <-> n <= 0.
Proof.
  split; [|apply colToA1_nonpos].
  intros E. destruct (decide (n <= 0)) as [|Hn]; [done|].
  rewrite colToA1_pos in E by lia.
  apply (f_equal String.length) in E. rewrite length_append in E. simpl in E. lia.
Qed.

Lemma colToA1_length_one n : String.length (colToA1 n) = 1%nat <-> 1 <= n <= 26.
Proof.
  destruct (decide (0 < n)) as [Hn|Hn].
  - rewrite colToA1_pos by done. rewrite length_append. simpl.
    split.
    + intros E. assert (colToA1 ((n - 1) / 26) = EmptyString) as E'
        by (destruct (colToA1 _); [done|simpl in E; lia]).
      apply colToA1_empty in E'. zdiv.
    + intros Hr. rewrite colToA1_nonpos by zdiv. done.
  - rewrite colToA1_nonpos by lia. simpl. lia.
Qed.

(** *** Decimal digits *)

Lemma digits_fuel_read f n acc :
  0 <= n < 2 ^ Z.of_nat f ->
  Js.read_digits 0 (Js.digits_fuel f n acc) = Js.read_digits n acc.
Proof.
  revert n acc. induction f as [|f IH]; intros n acc Hn.
  - simpl in *. by replace n with 0 by lia.
  - rewrite Nat2Z.inj_succ, Z.pow_succ_r in Hn by lia.
    simpl Js.digits_fuel.
    pose proof (is_digit_chr (n mod 10) ltac:(zdiv)) as [Hd Hv].
    destruct (n <? 10) eqn:E.
    + simpl. rewrite Hd. f_equal. rewrite Hv. zdiv.
    + rewrite IH by zdiv. simpl. rewrite Hd. f_equal. rewrite Hv. zdiv.
Qed.

Lemma digits_fuel_all_digits f n acc :
  0 <= n -> all_digits acc = true -> all_digits (Js.digits_fuel f n acc) = true.
Proof.
  revert n acc. induction f as [|f IH]; intros n acc Hn Ha; [done|].
  simpl Js.digits_fuel.
  pose proof (is_digit_chr (n mod 10) ltac:(zdiv)) as [Hd _].
  destruct (n <? 10).
  - simpl. by rewrite Hd.
  - apply IH; [zdiv|]. simpl. by rewrite Hd.
Qed.

Lemma log2_fuel n : 0 <= n -> n < 2 ^ Z.of_nat (S (Z.to_nat (Z.log2 n))).
Proof.
  intros Hn. rewrite Nat2Z.inj_succ, Z2Nat.id by apply Z.log2_nonneg.
  destruct (decide (n = 0)) as [->|Hne]; [done|].
  apply Z.log2_spec. lia.
Qed.

(** The digits printed for a natural number read back as that number. *)
Lemma read_digits_digits n : 0 <= n -> Js.read_digits 0 (Js.digits n) = n.
Proof.
  intros Hn. unfold Js.digits. rewrite digits_fuel_read; [done|].
  split; [done|by apply log2_fuel].
Qed.

Lemma all_digits_digits n : 0 <= n -> all_digits (Js.digits n) = true.
Proof. intros Hn. by apply digits_fuel_all_digits. Qed.

Lemma append_inv_head (a x y : string) : a +:+ x = a +:+ y -> x = y.
Proof. induction a as [|c a IH]; [done|]. rewrite !append_cons. intros [= E]. by apply IH. Qed.

Lemma capital_not_digit c : is_capital c = true -> Js.is_digit c = false.
Proof. unfold is_capital, Js.is_digit. lia. Qed.

(** Letters followed by digits split in one way only. *)
Lemma letters_digits_inj a a' b b' :
  all_capitals a = true -> all_capitals a' = true ->
  all_digits b = true -> all_digits b' = true ->
  a +:+ b = a' +:+ b' -> a = a' /\ b = b'.
Proof.
  revert a'. induction a as [|c a IH]; intros a' Ha Ha' Hb Hb' E.
  - destruct a' as [|c' a']; [done|]. exfalso.
    rewrite append_nil, append_cons in E. subst b. simpl in *.
    apply andb_prop in Ha' as [Hc _]. apply andb_prop in Hb as [Hd _].
    apply capital_not_digit in Hc. congruence.
  - destruct a' as [|c' a'].
    + exfalso. rewrite append_nil, append_cons in E. subst b'. simpl in *.
      apply andb_prop in Ha as [Hc _]. apply andb_prop in Hb' as [Hd _].
      apply capital_not_digit in Hc. congruence.
    + rewrite !append_cons in E. injection E as -> E. simpl in *.
      apply andb_prop in Ha as [_ Ha]. apply andb_prop in Ha' as [_ Ha'].
      destruct (IH a' Ha Ha' Hb Hb' E) as [-> ->]. done.
Qed.

Lemma colToA1_inj n m : 0 <= n -> 0 <= m -> colToA1 n = colToA1 m -> n = m.
Proof.
  intros Hn Hm E. rewrite <- (a1_value_colToA1 n), <- (a1_value_colToA1 m) by done.
  by rewrite E.
Qed.

(** *** More on engine strings *)

Lemma trimEnd_cons c s :
  Js.trimEnd (String c s) =
  match Js.trimEnd s with
  | EmptyString => if Js.is_space c then EmptyString else String c EmptyString
  | t => String c t
  end.
Proof. done. Qed.

Lemma trimEnd_idem s : Js.trimEnd (Js.trimEnd s) = Js.trimEnd s.
Proof.
  induction s as [|c s IH]; [done|]. rewrite trimEnd_cons.
  destruct (Js.trimEnd s) as [|a t] eqn:E.
  - destruct (Js.is_space c) eqn:Ec; [done|]. simpl. by rewrite Ec.
  - rewrite trimEnd_cons, IH. done.
Qed.

(** A trimmed start is empty or starts with a character that is not white space. *)
Lemma trimStart_head s :
  Js.trimStart s = EmptyString \/
  exists c r, Js.trimStart s = String c r /\ Js.is_space c = false.
Proof.
  induction s as [|c s IH]; [by left|]. simpl.
  destruct (Js.is_space c) eqn:E; [done|]. right. by exists c, s.
Qed.

Lemma trimEnd_head c r :
  Js.is_space c = false -> exists r', Js.trimEnd (String c r) = String c r'.
Proof.
  intros Hc. simpl. destruct (Js.trimEnd r); [|by eexists].
  rewrite Hc. by eexists.
Qed.

Lemma trim_idem s : Js.trim (Js.trim s) = Js.trim s.
Proof.
  unfold Js.trim.
  assert (Js.trimStart (Js.trimEnd (Js.trimStart s)) = Js.trimEnd (Js.trimStart s)) as ->.
  { destruct (trimStart_head s) as [->|(c & r & -> & Hc)]; [done|].
    destruct (trimEnd_head c r Hc) as [r' ->]. simpl. by rewrite Hc. }
  apply trimEnd_idem.
Qed.




Lemma prefix_refl p : String.prefix p p = true.
Proof. induction p as [|c p IH]; [done|]. simpl. by destruct (ascii_dec c c). Qed.

Lemma includes_refl p : includes p p = true.
Proof. destruct p; simpl; [done|]. destruct (ascii_dec a a); [|done]. by rewrite prefix_refl. Qed.

Lemma includes_app_r p s : includes p (s +:+ p) = true.
Proof.
  induction s as [|c s IH]; [apply includes_refl|].
  rewrite append_cons. simpl. rewrite IH. apply orb_true_r.
Qed.

(** Every field of a split is free of the separator. *)
Lemma split_fields_single sep s y : y ∈ Js.split sep s -> Js.split sep y = [y].
Proof.
  revert y. induction s as [|c s IH]; intros y Hy.
  - apply list_elem_of_singleton in Hy as ->. done.
  - simpl in Hy. destruct (Ascii.eqb c sep) eqn:E.
    + apply elem_of_cons in Hy as [->|Hy]; [done|by apply IH].
    + destruct (Js.split sep s) as [|h t] eqn:Es; [by destruct (split_not_nil sep s)|].
      apply elem_of_cons in Hy as [->|Hy].
      * simpl. rewrite E. rewrite (IH h) by left. done.
      * apply IH. by right.
Qed.

(** X1. [colToA1] numbers the columns without clashes: for every column
    number [n] from 0 to [MAX_SAFE_INTEGER], reading the letters of
    [colToA1 n] back as a numeral with the digits A = 1, ..., Z = 26 gives
    [n], so two different column numbers of that range never get the same
    letters. *)
Theorem colToA1_round_trip n m :
  0 <= n <= MAX_SAFE_INTEGER -> 0 <= m <= MAX_SAFE_INTEGER ->
  a1_value 0 (colToA1 n) = n /\ (colToA1 n = colToA1 m -> n = m).
Proof.
  intros [Hn _] [Hm _]. split; [by apply a1_value_colToA1|by apply colToA1_inj].
Qed.

Lemma colToA1_round_trip_witness :
  a1_value 0 (colToA1 28) = 28 /\ (colToA1 28 = colToA1 703 -> 28 = 703).
Proof. apply (colToA1_round_trip 28 703); unfold MAX_SAFE_INTEGER; lia. Defined.

(** X2. For a column number between [- MAX_SAFE_INTEGER] and
    [MAX_SAFE_INTEGER], [colToA1] returns capital letters A..Z only: no
    letter exactly when the number is not positive, one letter exactly
    for the columns 1..26, and then the n-th letter of the alphabet. *)
Theorem colToA1_letters n :
  - MAX_SAFE_INTEGER <= n <= MAX_SAFE_INTEGER ->
  all_capitals (colToA1 n) = true /\
  (colToA1 n = EmptyString <-> n <= 0) /\
  (String.length (colToA1 n) = 1%nat <-> 1 <= n <= 26) /\
  (1 <= n <= 26 -> colToA1 n = String (Js.chr (64 + n)) EmptyString).
Proof.
  intros _. split_and!.
  - apply all_capitals_colToA1.
  - apply colToA1_empty.
  - apply colToA1_length_one.
  - intros Hn. rewrite colToA1_pos by lia.
    replace ((n - 1) / 26) with 0 by zdiv. rewrite colToA1_nonpos by done.
    rewrite append_nil. do 2 f_equal. zdiv.
Qed.

Lemma colToA1_letters_witness :
  all_capitals (colToA1 27) = true /\
  (colToA1 27 = EmptyString <-> 27 <= 0) /\
  (String.length (colToA1 27) = 1%nat <-> 1 <= 27 <= 26) /\
  (1 <= 27 <= 26 -> colToA1 27 = String (Js.chr (64 + 27)) EmptyString).
Proof. apply (colToA1_letters 27). unfold MAX_SAFE_INTEGER. lia. Defined.

(** X3. The A1 range that [updateCell] builds on a worksheet names one
    cell: for row and column numbers from 0 to [MAX_SAFE_INTEGER], two
    ranges are the same text exactly when the row and the column are the
    same. *)
Theorem cell_range_inj ws r c r' c' :
  0 <= r <= MAX_SAFE_INTEGER -> 0 <= r' <= MAX_SAFE_INTEGER ->
  0 <= c <= MAX_SAFE_INTEGER -> 0 <= c' <= MAX_SAFE_INTEGER ->
  cell_range ws r c = cell_range ws r' c' <-> r = r' /\ c = c'.
Proof.
  intros [Hr _] [Hr' _] [Hc _] [Hc' _]. split; [|by intros [-> ->]].
  intros E. unfold cell_range in E.
  apply append_inv_head in E. rewrite !append_cons, !append_nil in E.
  injection E as E.
  unfold Js.numToString in E.
  destruct (Z.ltb_spec r 0); [lia|]. destruct (Z.ltb_spec r' 0); [lia|].
  apply letters_digits_inj in E as [Ec Er];
    auto using all_capitals_colToA1, all_digits_digits.
  split; [|by apply colToA1_inj].
  rewrite <- (read_digits_digits r), <- (read_digits_digits r') by done.
  by rewrite Er.
Qed.

(** Row 11 of column A and row 1 of column AA are different ranges. *)
Lemma cell_range_inj_witness :
  cell_range "Hoja 1" 11 1 = cell_range "Hoja 1" 1 27 <-> 11 = 1 /\ 1 = 27.
Proof. apply (cell_range_inj "Hoja 1" 11 1 1 27); unfold MAX_SAFE_INTEGER; lia. Defined.

(** *** The session *)

Lemma run_updates_snoc lo st us cu :
  run_updates lo st (us ++ [cu]) = (connection_update lo cu.1 (run_updates lo st us) cu.2).1.
Proof. unfold run_updates. by rewrite foldl_snoc. Qed.

(** Readiness after one event. *)
Lemma connReady_update lo clock st u :
  connReady (connection_update lo clock st u).1 =
  opens u || (negb (carries_qr u) && negb (closes u) && connReady st).
Proof.
  unfold connection_update, opens, closes, carries_qr.
  destruct (connection u) as [c|], (qr u) as [q|]; simpl.
  - destruct (String.eqb c "open") eqn:Eo; [done|].
    destruct (String.eqb c "close") eqn:Ec; simpl.
    + by rewrite andb_false_r.
    + by destruct (Js.truthy q).
  - destruct (String.eqb c "open") eqn:Eo; [done|].
    by destruct (String.eqb c "close") eqn:Ec.
  - by destruct (Js.truthy q).
  - done.
Qed.

(** While the session is ready no QR is kept. *)
Lemma ready_no_qr lo us :
  let st := run_updates lo session0 us in
  connReady st = true -> lastQR st = EmptyString /\ lastQRAt st = 0.
Proof.
  induction us as [|cu us IH] using rev_ind; [done|].
  rewrite run_updates_snoc. set (st := run_updates lo session0 us) in *.
  simpl in IH. clearbody st. simpl.
  unfold connection_update.
  destruct (connection cu.2) as [c|], (qr cu.2) as [q|]; simpl.
  - destruct (String.eqb c "open"); [done|]. by destruct (String.eqb c "close"), (Js.truthy q).
  - destruct (String.eqb c "open"); [done|]. by destruct (String.eqb c "close").
  - by destruct (Js.truthy q).
  - done.
Qed.

(** With clocks off the epoch, the QR and its time are kept together. *)
Lemma qr_and_time lo us :
  Forall (λ cu : Z * Update, cu.1 <> 0) us ->
  let st := run_updates lo session0 us in
  lastQR st = EmptyString <-> lastQRAt st = 0.
Proof.
  induction us as [|cu us IH] using rev_ind; [done|].
  intros [Hus Hcu]%Forall_app. apply Forall_inv in Hcu.
  specialize (IH Hus).
  rewrite run_updates_snoc. set (st := run_updates lo session0 us) in *.
  simpl in IH. clearbody st. simpl.
  unfold connection_update.
  destruct (connection cu.2) as [c|], (qr cu.2) as [q|]; simpl.
  - destruct (String.eqb c "open"); [done|].
    destruct (String.eqb c "close"), q; simpl. all: try done. all: split; [by intros ?|by intros ?].
  - destruct (String.eqb c "open"); [done|]. by destruct (String.eqb c "close").
  - destruct q; simpl; [done|]. split; [by intros ?|by intros ?].
  - done.
Qed.

(** X4. After any run of "connection.update" events from the initial
    state, [/status] never reports a connected session together with a
    QR: when [connected] is true, [hasQR] is false and [qrAgeMs] is null. *)
Theorem status_connected_no_qr env cfg lo us clock :
  let s := status env cfg (run_updates lo session0 us) clock in
  connected s = true -> hasQR s = false /\ qrAgeMs s = None.
Proof.
  simpl. intros Hc. destruct (ready_no_qr lo us Hc) as [-> ->]. done.
Qed.

Lemma status_connected_no_qr_witness :
  let us := [(1000, {| connection := None; statusCode := None; qr := Some "2@abc"%string |});
             (2000, {| connection := Some "open"%string; statusCode := None; qr := None |})] in
  let s := status (env_of (Some "key"%string) None) (config_of_env None None)
             (run_updates 401 session0 us) 3000 in
  connected s = true /\ hasQR s = false /\ qrAgeMs s = None.
Proof.
  split; [reflexivity|].
  apply (status_connected_no_qr (env_of (Some "key"%string) None) (config_of_env None None) 401
           [(1000, {| connection := None; statusCode := None; qr := Some "2@abc"%string |});
            (2000, {| connection := Some "open"%string; statusCode := None; qr := None |})]
           3000).
  reflexivity.
Defined.

(** X5. When no event of the run was handled at clock 0, [/status]
    reports [hasQR] exactly when [qrAgeMs] is not null, and the age it
    reports is the time since an event of the run that carried the QR
    now kept. *)
Theorem status_qr_age env cfg lo us clock :
  Forall (λ cu : Z * Update, cu.1 <> 0) us ->
  let s := status env cfg (run_updates lo session0 us) clock in
  (hasQR s = true <-> qrAgeMs s <> None) /\
  (forall a, qrAgeMs s = Some a ->
     exists t u q, (t, u) ∈ us /\ qr u = Some q /\ lastQR (run_updates lo session0 us) = q /\
                   a = clock - t).
Proof.
  intros Hus. simpl. split.
  - pose proof (qr_and_time lo us Hus) as Hq. simpl in Hq.
    destruct (Z.eqb_spec (lastQRAt (run_updates lo session0 us)) 0) as [E|E].
    + apply Hq in E. rewrite E. done.
    + destruct (lastQR (run_updates lo session0 us)); [by destruct E; apply Hq|done].
  - clear Hus. intros a.
    destruct (Z.eqb_spec (lastQRAt (run_updates lo session0 us)) 0) as [E|E]; [done|].
    intros [= <-]. revert E.
    induction us as [|cu us IH] using rev_ind; [done|].
    rewrite run_updates_snoc. set (st := run_updates lo session0 us) in *. clearbody st.
    assert (forall t u, (t, u) ∈ us -> (t, u) ∈ us ++ [cu]) as Hin
      by (intros; apply elem_of_app; by left).
    assert (lastQRAt st <> 0 ->
            exists t u q, (t, u) ∈ us ++ [cu] /\ qr u = Some q /\ lastQR st = q /\
                          clock - lastQRAt st = clock - t) as IH'.
    { intros E. destruct (IH E) as (t & u & q & ? & ? & ? & ?). exists t, u, q. eauto. }
    assert (forall q, qr cu.2 = Some q ->
            exists t u q', (t, u) ∈ us ++ [cu] /\ qr u = Some q' /\ q = q' /\
                          clock - cu.1 = clock - t) as Hnew.
    { intros q Eq. exists cu.1, cu.2, q. split_and!; try done.
      apply elem_of_app. right. destruct cu. by left. }
    clear IH Hin. unfold connection_update.
    destruct (connection cu.2) as [c|], (qr cu.2) as [q|]; simpl.
    + destruct (String.eqb c "open"); [done|].
      destruct (String.eqb c "close"), (Js.truthy q); simpl; eauto.
    + destruct (String.eqb c "open"); [done|]. destruct (String.eqb c "close"); simpl; eauto.
    + destruct (Js.truthy q); simpl; eauto.
    + eauto.
Qed.

Lemma status_qr_age_witness :
  let us := [(1000, {| connection := None; statusCode := None; qr := Some "2@abc"%string |})] in
  let s := status (env_of None None) (config_of_env None None) (run_updates 401 session0 us) 3000 in
  qrAgeMs s = Some 2000 /\ (hasQR s = true <-> qrAgeMs s <> None).
Proof.
  split; [reflexivity|].
  apply (status_qr_age (env_of None None) (config_of_env None None) 401
           [(1000, {| connection := None; statusCode := None; qr := Some "2@abc"%string |})] 3000).
  repeat constructor. simpl. lia.
Defined.

(** X6. After a run of "connection.update" events from the initial
    state the session is ready exactly when some event opened the
    connection and no later event carried a QR or closed it. *)
Theorem ready_iff_open_since lo us :
  connReady (run_updates lo session0 us) = true <->
  exists us1 cu us2,
    us = us1 ++ cu :: us2 /\ opens cu.2 = true /\
    Forall (λ cu' : Z * Update, carries_qr cu'.2 = false /\ closes cu'.2 = false) us2.
Proof.
  induction us as [|x us IH] using rev_ind.
  - split; [done|]. intros (us1 & cu & us2 & E & _). by destruct us1.
  - rewrite run_updates_snoc, connReady_update. split.
    + intros Hr. destruct (opens x.2) eqn:Eo.
      * exists us, x, []. by split_and!.
      * simpl in Hr. apply andb_true_iff in Hr as [[Hq Hc]%andb_true_iff Hr].
        apply IH in Hr as (us1 & cu & us2 & -> & Ho & Hall).
        exists us1, cu, (us2 ++ [x]). split_and!; [by rewrite <- app_assoc|done|].
        apply Forall_app. split; [done|]. apply Forall_singleton.
        by split; apply negb_true_iff.
    + intros (us1 & cu & us2 & E & Ho & Hall).
      destruct us2 as [|y us2 _] using rev_ind.
      * apply app_inj_tail in E as [_ ->]. by rewrite Ho.
      * change (us1 ++ cu :: us2 ++ [y]) with (us1 ++ (cu :: us2) ++ [y]) in E.
        rewrite app_assoc in E. apply app_inj_tail in E as [-> ->].
        apply Forall_app in Hall as [Hall [Hq Hc]%Forall_singleton].
        rewrite Hq, Hc. simpl. rewrite orb_true_iff. right.
        apply IH. by exists us1, cu, us2.
Qed.

(** *** The test route and the addresses *)


(** X8. The address [sendText] hands to the socket always contains
    "@s.whatsapp.net"; building it twice changes nothing, and an address
    without the suffix gets it appended. *)
Theorem jid_of_suffix toNumber :
  includes "@s.whatsapp.net" (jid_of toNumber) = true /\
  jid_of (jid_of toNumber) = jid_of toNumber /\
  (includes "@s.whatsapp.net" toNumber = false ->
   jid_of toNumber = toNumber +:+ "@s.whatsapp.net").
Proof.
  assert (includes "@s.whatsapp.net" (jid_of toNumber) = true) as Hi.
  { unfold jid_of. destruct (includes _ toNumber) eqn:E; [done|apply includes_app_r]. }
  split; [done|]. split.
  - unfold jid_of at 1. by rewrite Hi.
  - intros E. unfold jid_of. by rewrite E.
Qed.

Lemma trim_single_field sep s :
  Js.split sep s = [s] -> Js.split sep (Js.trim s) = [Js.trim s].
Proof.
  intros Hs. unfold Js.trim.
  by apply single_field_trimEnd, single_field_trimStart.
Qed.

(** X9. Every entry of DEST_NUMBERS as read from the environment is not
    empty, has no white space around it and no comma in it, and is the
    trimmed text of one comma-separated field of the variable. *)
Theorem dest_numbers_clean v x :
  x ∈ dest_numbers_of_env v ->
  x <> EmptyString /\ Js.trim x = x /\ Js.split "," x = [x] /\
  exists y, y ∈ Js.split "," (Js.or_else v EmptyString) /\ x = Js.trim y.
Proof.
  unfold dest_numbers_of_env. intros [Ht (y & -> & Hy)%list_elem_of_fmap]%list_elem_of_filter.
  split_and!.
  - by destruct (Js.trim y).
  - apply trim_idem.
  - by eapply trim_single_field, split_fields_single.
  - by exists y.
Qed.

Lemma dest_numbers_clean_witness :
  dest_numbers_of_env (Some " 5215550001 ,, 5215550002@s.whatsapp.net , "%string) =
    ["5215550001"; "5215550002@s.whatsapp.net"]%string /\
  ("5215550001"%string <> EmptyString /\ Js.trim "5215550001" = "5215550001"%string /\
   Js.split "," "5215550001" = ["5215550001"%string] /\
   exists y, y ∈ Js.split "," (Js.or_else
                (Some " 5215550001 ,, 5215550002@s.whatsapp.net , "%string) EmptyString) /\
             "5215550001"%string = Js.trim y).
Proof.
  split; [vm_compute; reflexivity|].
  apply (dest_numbers_clean (Some " 5215550001 ,, 5215550002@s.whatsapp.net , "%string)
           "5215550001"%string).
  apply list_elem_of_In. vm_compute. left. reflexivity.
Defined.

(** *** Dates *)

Section TrimmedText.
Context `{JsEngine}.

Lemma parse_blank s : Js.trim s = EmptyString -> parseDDMMYY (Some s) = None.
Proof. intros E. unfold parseDDMMYY. rewrite E. by destruct (negb _). Qed.

Lemma parse_blank_part000 s : Js.trim s = EmptyString -> Part000.parseDDMMYY (Some s) = None.
Proof. intros E. unfold Part000.parseDDMMYY. rewrite E. by destruct (negb _). Qed.

(** X10. White space around the text of a cell does not matter to
    [parseDDMMYY], in both versions: a text and its trimmed form parse
    alike. *)
Theorem parseDDMMYY_trimmed s :
  parseDDMMYY (Some s) = parseDDMMYY (Some (Js.trim s)) /\
  Part000.parseDDMMYY (Some s) = Part000.parseDDMMYY (Some (Js.trim s)).
Proof.
  destruct (Js.trim s) as [|a t] eqn:Et.
  - by rewrite parse_blank, parse_blank_part000.
  - unfold parseDDMMYY, Part000.parseDDMMYY.
    rewrite <- Et, trim_idem, Et.
    destruct s as [|b s']; [done|]. done.
Qed.

(** X11. Whenever [parseDDMMYY] of [part_000] returns a date,
    [parseDDMMYY] of [index.js] returns the same date: on every input the
    older version answers null or what the newer one answers. *)
Theorem part000_agrees s :
  Part000.parseDDMMYY s = None \/ Part000.parseDDMMYY s = parseDDMMYY s.
Proof.
  destruct s as [s|]; [|by left]. unfold Part000.parseDDMMYY, parseDDMMYY.
  destruct (negb (Js.truthy s)); [by left|].
  destruct (Js.split "/" (Js.trim s)) as [|d [|m [|y rest]]]; simpl; try by left.
  destruct (Js.truthy d && Js.truthy m && Js.truthy y); [by right|by left].
Qed.

End TrimmedText.

(** The two digits [format] prints for a day or a month. *)
Lemma pad2 n :
  0 <= n <= 99 ->
  Js.padStart0 2 (Js.numToString (Some n)) =
  String (Js.chr (48 + n / 10)) (String (Js.chr (48 + n mod 10)) EmptyString).
Proof.
  intros Hn. unfold Js.numToString, Js.digits.
  replace (n <? 0) with false by lia.
  destruct (Z.ltb_spec n 10) as [Hs|Hs].
  - simpl. replace (n <? 10) with true by lia.
    replace (n / 10) with 0 by zdiv. done.
  - assert (3 <= Z.log2 n) as Hl by (change 3 with (Z.log2 10); apply Z.log2_le_mono; lia).
    destruct (Z.to_nat (Z.log2 n)) as [|k] eqn:E; [lia|].
    simpl. replace (n <? 10) with false by lia.
    replace (n / 10 <? 10) with true by zdiv.
    replace (n / 10 mod 10) with (n / 10) by zdiv. done.
Qed.

Lemma pad4 n :
  1000 <= n <= 9999 -> Js.padStart0 4 (Js.numToString (Some n)) = Js.numToString (Some n).
Proof. intros Hn. by rewrite (numToString_year n Hn). Qed.

Lemma two_digits a b :
  0 <= a <= 9 -> 0 <= b <= 9 ->
  let s := String (Js.chr (48 + a)) (String (Js.chr (48 + b)) EmptyString) in
  day_month_field s /\ Js.read_digits 0 s = 10 * a + b.
Proof.
  intros Ha Hb. destruct (is_digit_chr a Ha) as [Da Va], (is_digit_chr b Hb) as [Db Vb].
  simpl. unfold day_month_field. simpl. rewrite Da, Db, Va, Vb. split_and!; try done; lia.
Qed.

Lemma year_digits n :
  1000 <= n <= 9999 ->
  year_field (Js.numToString (Some n)) /\ year_meant (Js.numToString (Some n)) = n.
Proof.
  intros Hn.
  assert (String.length (Js.numToString (Some n)) = 4%nat) as Hl
    by by rewrite (numToString_year n Hn).
  assert (Js.numToString (Some n) = Js.digits n) as E
    by (unfold Js.numToString; by replace (n <? 0) with false by lia).
  assert (Js.read_digits 0 (Js.numToString (Some n)) = n) as Hr
    by (rewrite E; apply read_digits_digits; lia).
  unfold year_field, year_meant. rewrite Hl, Hr. split_and!; try done.
  - rewrite E. apply all_digits_digits. lia.
  - right. split; [done|lia].
Qed.

Lemma newDate_date y mo d : newDate y mo d = newDate y mo 1 + (d - 1) * msPerDay.
Proof. unfold newDate, MakeDay. lia. Qed.

Section DigitFields.
Context `{JsEngine}.

Lemma slash_fields d m y :
  all_digits d = true -> all_digits m = true -> all_digits y = true ->
  Js.split "/" d = [d] /\ Js.split "/" m = [m] /\ Js.split "/" y = [y].
Proof. intros. split_and!; by apply all_digits_single_field. Qed.

Lemma parse_digit_fields d m y :
  day_month_field d -> day_month_field m -> year_field y ->
  let s := Some (d +:+ "/" +:+ m +:+ "/" +:+ y) in
  let t := newDate (year_meant y) (Js.read_digits 0 m - 1) (Js.read_digits 0 d) in
  parseDDMMYY s = Some t /\ Part000.parseDDMMYY s = Some t.
Proof.
  intros [Hd Hld] [Hm Hlm] Hy. cbv zeta.
  destruct (slash_fields d m y Hd Hm (proj1 Hy)) as (Sd & Sm & Sy).
  rewrite parseDDMMYY_three, parseDDMMYY_part000_three by done.
  rewrite (all_digits_trimStart d Hd), (all_digits_trimEnd y (proj1 Hy)).
  rewrite date_of_fields_digits; [|done|lia|done|done].
  assert (Js.truthy d = true) as -> by (destruct d; [simpl in Hld; lia|done]).
  assert (Js.truthy m = true) as -> by (destruct m; [simpl in Hlm; lia|done]).
  assert (Js.truthy y = true) as ->
    by (destruct y; [by destruct Hy as [_ [?|[? _]]]|done]).
  done.
Qed.

(** X12. For a text D/M/Y of digits (D and M of one or two digits, Y of
    two digits or of four not starting with 0) both versions return a
    date and never null: the day that comes D - 1 days after the first
    day of month M of the year as [new Date] counts it, so a day past the
    end of the month rolls over into the months that follow (and a month
    outside 1..12 into the years around). *)
Theorem day_overflow_rolls d m y :
  day_month_field d -> day_month_field m -> year_field y ->
  let s := Some (d +:+ "/" +:+ m +:+ "/" +:+ y) in
  let t := newDate (year_meant y) (Js.read_digits 0 m - 1) 1
           + (Js.read_digits 0 d - 1) * msPerDay in
  parseDDMMYY s = Some t /\ Part000.parseDDMMYY s = Some t.
Proof.
  intros Hd Hm Hy. cbv zeta. rewrite <- newDate_date.
  by apply parse_digit_fields.
Qed.

(** X13. A text "/M/Y" whose day is missing is read by [index.js] as
    the first day of the month, and by [part_000] as null. *)
Theorem missing_day_is_first m y :
  day_month_field m -> year_field y ->
  let s := Some ("/" +:+ m +:+ "/" +:+ y) in
  parseDDMMYY s = Some (newDate (year_meant y) (Js.read_digits 0 m - 1) 1) /\
  Part000.parseDDMMYY s = None.
Proof.
  intros [Hm Hlm] Hy. cbv zeta.
  destruct (slash_fields EmptyString m y eq_refl Hm (proj1 Hy)) as (Sd & Sm & Sy).
  rewrite <- (append_nil ("/" +:+ m +:+ "/" +:+ y)).
  rewrite parseDDMMYY_three, parseDDMMYY_part000_three by done.
  rewrite (all_digits_trimEnd y (proj1 Hy)). simpl Js.trimStart.
  split; [|done].
  by rewrite date_of_fields_digits; [|done|simpl; lia|done|done].
Qed.

(** X14. The date text that [/preview] prints (DD/MM/YYYY) parses back
    to the start of the same day, for every time in the years 1000..9999,
    in both versions. *)
Theorem format_parse_round_trip t :
  1000 <= YearFromTime t <= 9999 ->
  parseDDMMYY (Some (format_DDMMYYYY t)) = Some (startOfDay t) /\
  Part000.parseDDMMYY (Some (format_DDMMYYYY t)) = Some (startOfDay t).
Proof.
  unfold format_DDMMYYYY, YearFromTime, MonthFromTime, DateFromTime, startOfDay.
  pose proof (civil_from_days_valid (Day t)) as Hv.
  pose proof (days_from_civil_of_civil (Day t)) as Hr.
  destruct (civil_from_days (Day t)) as [[y mo] d]. cbn [fst snd]. intros Hy.
  destruct Hv as [Hmo Hd].
  assert (d <= 31) as Hd31
    by (unfold days_in_month in Hd;
        repeat (destruct (_ =? _) in Hd; simpl in Hd); destruct (leap y); lia).
  rewrite (pad2 d), (pad2 mo), (pad4 y) by lia.
  destruct (two_digits (d / 10) (d mod 10) ltac:(zdiv) ltac:(zdiv)) as [Fd Rd].
  destruct (two_digits (mo / 10) (mo mod 10) ltac:(zdiv) ltac:(zdiv)) as [Fm Rm].
  destruct (year_digits y Hy) as [Fy Ry].
  pose proof (parse_digit_fields _ _ _ Fd Fm Fy) as Hp. cbv zeta in Hp.
  rewrite Rd, Rm, Ry in Hp.
  replace (10 * (mo / 10) + mo mod 10) with mo in Hp by zdiv.
  replace (10 * (d / 10) + d mod 10) with d in Hp by zdiv.
  replace (newDate y (mo - 1) d) with (Day t * msPerDay) in Hp; [done|].
  unfold newDate. replace ((0 <=? y) && (y <=? 99)) with false by lia.
  by rewrite MakeDay_month, Hr.
Qed.

End DigitFields.

(** *** The date policy over a sheet *)

Lemma cond_today_any mode fecha today :
  cond "today" fecha today = true -> cond mode fecha today = true.
Proof.
  unfold cond. simpl String.eqb. cbv iota. intros Hs.
  destruct (String.eqb mode "today"); [done|].
  apply isSame_Day in Hs. apply isBefore_addDay. lia.
Qed.

Lemma cond_later mode fecha today today' :
  mode <> "today"%string -> today <= today' ->
  cond mode fecha today = true -> cond mode fecha today' = true.
Proof.
  intros Hm Ht. unfold cond.
  destruct (String.eqb_spec mode "today"); [done|].
  rewrite !isBefore_addDay. intros Hd.
  assert (Day today <= Day today') by (unfold Day, msPerDay; zdiv). lia.
Qed.

Section Policy.
Context `{JsEngine}.

Lemma due_fecha_cond m1 t1 m2 t2 cols row f :
  (forall fecha, cond m1 fecha t1 = true -> cond m2 fecha t2 = true) ->
  due_fecha m1 t1 cols row = Some f -> due_fecha m2 t2 cols row = Some f.
Proof.
  intros Hc. unfold due_fecha. destruct (fecha_of cols row) as [fecha|]; [|done].
  destruct (String.eqb _ si); [done|].
  destruct (cond m1 fecha t1) eqn:E; [|done]. by rewrite (Hc _ E).
Qed.

Lemma preview_rows_sublist m1 t1 m2 t2 cols rows :
  (forall fecha, cond m1 fecha t1 = true -> cond m2 fecha t2 = true) ->
  forall idx, sublist (preview_rows m1 t1 cols idx rows) (preview_rows m2 t2 cols idx rows).
Proof.
  intros Hc. induction rows as [|row rest IH]; intros idx; [constructor|].
  simpl. destruct (due_fecha m1 t1 cols row) as [f|] eqn:E1.
  - rewrite (due_fecha_cond _ _ _ _ _ _ _ Hc E1). by apply sublist_skip.
  - destruct (due_fecha m2 t2 cols row); [by apply sublist_cons|done].
Qed.

(** X15. What the loop lists in mode "today" it lists in every mode, in
    the same order; and in a mode other than "today" a later reference
    time lists at least what an earlier one lists. *)
Theorem due_set_grows mode today today' cols idx rows :
  sublist (preview_rows "today" today cols idx rows) (preview_rows mode today cols idx rows) /\
  (mode <> "today"%string -> today <= today' ->
   sublist (preview_rows mode today cols idx rows) (preview_rows mode today' cols idx rows)).
Proof.
  split.
  - apply preview_rows_sublist. intros. by apply cond_today_any.
  - intros Hm Ht. apply preview_rows_sublist. intros. by eapply cond_later.
Qed.

End Policy.

(** *** The header map, column by column *)

Lemma header_map_snoc hs h :
  header_map (hs ++ [h]) = <[normalize_header h := length hs]> (header_map hs).
Proof.
  unfold header_map. rewrite imap_app. simpl. rewrite reverse_snoc. simpl.
  by rewrite Nat.add_0_r.
Qed.

(** The column kept for a name is the last one that carries it. *)
Lemma header_map_Some headers k i :
  header_map headers !! k = Some i <->
  (normalize_header <$> headers) !! i = Some k /\
  forall j, (i < j)%nat -> (normalize_header <$> headers) !! j <> Some k.
Proof.
  revert i. induction headers as [|h hs IH] using rev_ind; intros i.
  - split; [done|]. by intros [? _].
  - rewrite header_map_snoc, fmap_app. simpl.
    set (names := normalize_header <$> hs) in *.
    assert (length names = length hs) as Hl by apply length_fmap.
    destruct (decide (normalize_header h = k)) as [->|Hk].
    + rewrite lookup_insert_eq. split.
      * intros [= <-]. rewrite <- Hl. split.
        -- by rewrite lookup_app_r, Nat.sub_diag.
        -- intros j Hj. rewrite lookup_ge_None_2; [done|]. rewrite length_app. simpl. lia.
      * intros [Hi Hlast]. f_equal.
        destruct (decide (i < length names)%nat) as [Hlt|Hge].
        -- destruct (Hlast (length names) Hlt). by rewrite lookup_app_r, Nat.sub_diag.
        -- apply lookup_lt_Some in Hi. rewrite length_app in Hi. simpl in Hi. lia.
    + rewrite lookup_insert_ne by done. rewrite IH. split.
      * intros [Hi Hlast]. pose proof (lookup_lt_Some _ _ _ Hi) as Hlt. split.
        -- by rewrite lookup_app_l.
        -- intros j Hj. destruct (decide (j < length names)%nat) as [Hj'|Hj'].
           ++ rewrite lookup_app_l by done. by apply Hlast.
           ++ destruct (decide (j = length names)) as [->|Hne].
              ** rewrite lookup_app_r, Nat.sub_diag by done. simpl. congruence.
              ** rewrite lookup_ge_None_2; [done|]. rewrite length_app. simpl. lia.
      * intros [Hi Hlast].
        assert (i < length names)%nat as Hlt.
        { destruct (decide (i < length names)%nat) as [|Hge]; [done|].
          destruct (decide (i = length names)) as [->|Hne].
          - rewrite lookup_app_r, Nat.sub_diag in Hi by done. simpl in Hi. congruence.
          - rewrite lookup_ge_None_2 in Hi; [done|]. rewrite length_app. simpl. lia. }
        rewrite lookup_app_l in Hi by done. split; [done|].
        intros j Hj Hjk. apply (Hlast j Hj).
        rewrite lookup_app_l; [done|]. by apply lookup_lt_Some in Hjk.
Qed.

Lemma last_column_inj headers k k' i : last_column headers k i -> last_column headers k' i -> k = k'.
Proof. intros [E _] [E' _]. congruence. Qed.

Lemma last_column_lt headers k i : last_column headers k i -> (i < length headers)%nat.
Proof. intros [E _]. apply lookup_lt_Some in E. by rewrite length_fmap in E. Qed.

Lemma iEnviado_in_headers headers cols :
  resolve_columns headers = Some cols -> (iEnviado cols < length headers)%nat.
Proof.
  unfold resolve_columns. cbv zeta.
  destruct (header_map headers !! "nombre"); [|done].
  destruct (header_map headers !! "cargo"); [|done].
  destruct (fecha_column (header_map headers)); [|done].
  destruct (header_map headers !! "enviado") as [e|] eqn:Ee; [|done].
  intros [= <-]. simpl. apply header_map_Some in Ee. by eapply last_column_lt.
Qed.

(** X16. When the four columns resolve, each is the last column whose
    trimmed, lower-cased header is the name of its field; the date column
    is a "fecha" column when there is one, else a "fecha (dd/mm/yy)"
    column when there is one, else a "fecha(dd/mm/yy)" column; the four
    positions are pairwise different and lie inside the header row. *)
Theorem resolved_columns headers cols :
  resolve_columns headers = Some cols ->
  last_column headers "nombre" (iNombre cols) /\
  last_column headers "cargo" (iCargo cols) /\
  last_column headers "enviado" (iEnviado cols) /\
  (exists k, last_column headers k (iFecha cols) /\
     (k = "fecha"%string \/
      (k = "fecha (dd/mm/yy)"%string /\ ("fecha"%string ∉ normalize_header <$> headers)) \/
      (k = "fecha(dd/mm/yy)"%string /\ ("fecha"%string ∉ normalize_header <$> headers) /\
       ("fecha (dd/mm/yy)"%string ∉ normalize_header <$> headers)))) /\
  NoDup [iNombre cols; iCargo cols; iFecha cols; iEnviado cols] /\
  Forall (λ i, (i < length headers)%nat) [iNombre cols; iCargo cols; iFecha cols; iEnviado cols].
Proof.
  unfold resolve_columns. cbv zeta.
  destruct (header_map headers !! "nombre") as [n|] eqn:En; [|done].
  destruct (header_map headers !! "cargo") as [c|] eqn:Ec; [|done].
  destruct (fecha_column (header_map headers)) as [f|] eqn:Ef; [|done].
  destruct (header_map headers !! "enviado") as [e|] eqn:Ee; [|done].
  intros [= <-]. simpl.
  apply header_map_Some in En, Ec, Ee. fold (last_column headers "nombre" n) in En.
  fold (last_column headers "cargo" c) in Ec. fold (last_column headers "enviado" e) in Ee.
  assert (exists k, last_column headers k f /\
     (k = "fecha"%string \/
      (k = "fecha (dd/mm/yy)"%string /\ ("fecha"%string ∉ normalize_header <$> headers)) \/
      (k = "fecha(dd/mm/yy)"%string /\ ("fecha"%string ∉ normalize_header <$> headers) /\
       ("fecha (dd/mm/yy)"%string ∉ normalize_header <$> headers)))) as (k & Hk & Hcases).
  { unfold fecha_column, nullish in Ef.
    destruct (header_map headers !! "fecha") as [f1|] eqn:E1.
    - injection Ef as ->. exists "fecha"%string. split; [by apply header_map_Some|by left].
    - apply header_map_lookup in E1.
      destruct (header_map headers !! "fecha (dd/mm/yy)") as [f2|] eqn:E2.
      + injection Ef as ->. exists "fecha (dd/mm/yy)"%string.
        split; [by apply header_map_Some|]. right. by left.
      + apply header_map_lookup in E2. exists "fecha(dd/mm/yy)"%string.
        split; [by apply header_map_Some|]. right. by right. }
  split_and!; try done.
  - by exists k.
  - assert (n <> c) by (intros ->; by pose proof (last_column_inj _ _ _ _ En Ec)).
    assert (n <> e) by (intros ->; by pose proof (last_column_inj _ _ _ _ En Ee)).
    assert (c <> e) by (intros ->; by pose proof (last_column_inj _ _ _ _ Ec Ee)).
    assert (n <> f) by (intros ->; pose proof (last_column_inj _ _ _ _ En Hk);
                        destruct Hcases as [?|[[? _]|[? _]]]; congruence).
    assert (c <> f) by (intros ->; pose proof (last_column_inj _ _ _ _ Ec Hk);
                        destruct Hcases as [?|[[? _]|[? _]]]; congruence).
    assert (f <> e) by (intros ->; pose proof (last_column_inj _ _ _ _ Ee Hk);
                        destruct Hcases as [?|[[? _]|[? _]]]; congruence).
    rewrite !NoDup_cons, !not_elem_of_cons.
    split_and!; auto using not_elem_of_nil, NoDup_nil_2.
  - repeat constructor; by eapply last_column_lt.
Qed.

(** *** What the calls of a pass carry *)

Lemma sends_ok_elem_dest r msg dests e :
  e ∈ sends_ok r msg dests -> exists num, num ∈ dests /\ e = ESend r num msg Delivered.
Proof. unfold sends_ok. intros (num & -> & Hn)%list_elem_of_fmap. by exists num. Qed.

Lemma written_rows_sends_ok r msg dests : written_rows (sends_ok r msg dests) = [].
Proof. unfold written_rows, sends_ok. by induction dests. Qed.

Lemma written_rows_app a b : written_rows (a ++ b) = written_rows a ++ written_rows b.
Proof. apply omap_app. Qed.

Section Calls.
Context `{JsEngine}.

Lemma loop_trace_calls cfg today cols idx rows evs res :
  loop_trace cfg today cols idx rows evs res ->
  forall e, e ∈ evs ->
  exists i row fecha,
    rows !! i = Some row /\ due_fecha (SEND_MODE cfg) today cols row = Some fecha /\
    event_row e = (idx + i + 2)%nat /\ call_of_row cfg cols row fecha e.
Proof.
  induction 1 as [idx|idx row rest evs res Hd Ht IH|idx row rest fecha evs res Hd Ht IH
                 |idx row rest fecha pre num post o Hd Hdest Ho|idx row rest fecha e0 Hd];
    intros e He.
  - by apply elem_of_nil in He.
  - destruct (IH e He) as (i & r & f & Hi & Hdue & Hr & Hc).
    exists (S i), r, f. split_and!; [done|done|lia|done].
  - apply elem_of_app in He as [He|He].
    + apply sends_ok_elem_dest in He as (n & Hn & ->).
      exists 0%nat, row, fecha. split_and!; [done|done|simpl; lia|done].
    + apply elem_of_cons in He as [->|He].
      * exists 0%nat, row, fecha. split_and!; [done|done|simpl; lia|done].
      * destruct (IH e He) as (i & r & f & Hi & Hdue & Hr & Hc).
        exists (S i), r, f. split_and!; [done|done|lia|done].
  - exists 0%nat, row, fecha. split; [done|]. split; [done|].
    apply elem_of_app in He as [He|He].
    + apply sends_ok_elem_dest in He as (n & Hn & ->). split; [simpl; lia|].
      split; [|done]. rewrite Hdest. apply elem_of_app. by left.
    + apply list_elem_of_singleton in He as ->. split; [simpl; lia|].
      split; [|done]. rewrite Hdest. apply elem_of_app. right. by left.
  - exists 0%nat, row, fecha. split; [done|]. split; [done|].
    apply elem_of_app in He as [He|He].
    + apply sends_ok_elem_dest in He as (n & Hn & ->). split; [simpl; lia|done].
    + apply list_elem_of_singleton in He as ->. split; [simpl; lia|done].
Qed.

(** The rows the loop would list, in order. *)
Lemma preview_rows_bounds mode today cols rows :
  forall idx, Forall (λ r, idx + 2 <= r < idx + 2 + length rows)%nat
                (p_row <$> preview_rows mode today cols idx rows).
Proof.
  induction rows as [|row rest IH]; intros idx; [constructor|].
  simpl. assert (Forall (λ r, idx + 2 <= r < idx + 2 + S (length rest))%nat
                   (p_row <$> preview_rows mode today cols (S idx) rest)) as Hrest.
  { eapply Forall_impl; [apply IH|]. simpl. intros. lia. }
  destruct (due_fecha mode today cols row); [|done].
  constructor; [simpl; lia|done].
Qed.

Lemma preview_rows_sorted mode today cols rows :
  forall idx, StronglySorted lt (p_row <$> preview_rows mode today cols idx rows).
Proof.
  induction rows as [|row rest IH]; intros idx; [constructor|].
  simpl. destruct (due_fecha mode today cols row); [|done].
  constructor; [done|]. simpl.
  eapply Forall_impl; [apply preview_rows_bounds|]. simpl. intros. lia.
Qed.

Lemma loop_trace_written cfg today cols idx rows evs res :
  loop_trace cfg today cols idx rows evs res ->
  written_rows evs `prefix_of` (p_row <$> preview_rows (SEND_MODE cfg) today cols idx rows) /\
  (res = None ->
   written_rows evs = p_row <$> preview_rows (SEND_MODE cfg) today cols idx rows).
Proof.
  induction 1 as [idx|idx row rest evs res Hd Ht IH|idx row rest fecha evs res Hd Ht IH
                 |idx row rest fecha pre num post o Hd Hdest Ho|idx row rest fecha e0 Hd].
  - done.
  - simpl. by rewrite Hd.
  - simpl. rewrite Hd. rewrite written_rows_app, written_rows_sends_ok. simpl.
    destruct IH as [IH1 IH2]. split.
    + by apply prefix_cons.
    + intros E. by rewrite IH2.
  - rewrite written_rows_app, written_rows_sends_ok. simpl. split; [|done].
    apply prefix_nil.
  - rewrite written_rows_app, written_rows_sends_ok. simpl. split; [|done].
    apply prefix_nil.
Qed.

End Calls.

Lemma bind_ok_inv {A B} (m : M A) (k : A -> M B) c b evs c' :
  (m ≫= k) c = (Ok b, evs, c') ->
  exists a evs1 c1 evs2,
    m c = (Ok a, evs1, c1) /\ k a c1 = (Ok b, evs2, c') /\ evs = evs1 ++ evs2.
Proof.
  unfold mbind, M_bind. destruct (m c) as [[[a|e] evs1] c1]; [|done].
  destruct (k a c1) as [[r evs2] c2] eqn:Ek. intros [= -> <- ->].
  by exists a, evs1, c1, evs2.
Qed.

Lemma send_all_ok w r msg dests c u evs c' :
  send_all w r msg dests c = (Ok u, evs, c') -> evs = sends_ok r msg dests.
Proof.
  intros E. destruct (send_all_run w r msg dests c)
    as [[c1 E1]|(pre & num & post & o & c1 & _ & _ & _ & E1)]; congruence.
Qed.

Lemma send_all_delivered w r msg dests c :
  (forall k, channel w k = Delivered) ->
  exists c', send_all w r msg dests c = (Ok tt, sends_ok r msg dests, c').
Proof.
  intros Hch. destruct (send_all_run w r msg dests c)
    as [[c1 E1]|(pre & num & post & o & c1 & _ & Ho & Hk & E1)]; [by exists c1|].
  by rewrite Hk, Hch in Ho.
Qed.

Lemma updateCell_ok w r col v c u evs c' :
  updateCell w r col v c = (Ok u, evs, c') -> evs = [EWrite r col v None].
Proof. unfold updateCell. destruct (store_write w (writes c)); by intros [= <- <-]. Qed.

Section Done.
Context `{JsEngine}.

Lemma send_rows_ok cfg w today cols rows :
  forall idx sent c s evs c',
  send_rows cfg w today cols idx rows sent c = (Ok s, evs, c') ->
  s = sent ++ (sent_of <$> preview_rows (SEND_MODE cfg) today cols idx rows) /\
  length evs = (length (preview_rows (SEND_MODE cfg) today cols idx rows)
                * (length (DEST_NUMBERS cfg) + 1))%nat.
Proof.
  induction rows as [|row rest IH]; intros idx sent c s evs c' E.
  - simpl in E. injection E as <- <- <-. by rewrite app_nil_r.
  - simpl in E. simpl preview_rows.
    destruct (due_fecha (SEND_MODE cfg) today cols row) as [fecha|]; [|by eapply IH].
    apply bind_ok_inv in E as (u1 & evs1 & c1 & evs1' & E1 & E & ->).
    apply bind_ok_inv in E as (u2 & evs2 & c2 & evs3 & E2 & E3 & ->).
    apply send_all_ok in E1 as ->. apply updateCell_ok in E2 as ->.
    apply IH in E3 as [-> Hl]. split.
    + by rewrite <- app_assoc.
    + rewrite !length_app, Hl. unfold sends_ok. rewrite length_fmap. simpl. lia.
Qed.

Lemma send_rows_delivered cfg w today cols rows :
  (forall k, channel w k = Delivered) -> (forall k, store_write w k = None) ->
  forall idx sent c, exists s evs c',
    send_rows cfg w today cols idx rows sent c = (Ok s, evs, c').
Proof.
  intros Hch Hst. induction rows as [|row rest IH]; intros idx sent c.
  - by exists sent, [], c.
  - simpl. destruct (due_fecha (SEND_MODE cfg) today cols row) as [fecha|]; [|apply IH].
    destruct (send_all_delivered w (idx + 2)
                (message (nombre_of cols row) (cargo_of cols row) fecha)
                (DEST_NUMBERS cfg) c Hch) as [c1 E1].
    rewrite (bind_ok _ _ _ _ _ _ E1).
    assert (updateCell w (idx + 2) (iEnviado cols + 1) si c1 =
            (Ok tt, [EWrite (idx + 2) (iEnviado cols + 1) si None],
             {| sends := sends c1; writes := S (writes c1) |})) as E2
      by (unfold updateCell; by rewrite Hst).
    rewrite (bind_ok _ _ _ _ _ _ E2).
    destruct (IH (S idx) (sent ++ [{| s_row := (idx + 2)%nat; s_Nombre := nombre_of cols row |}])
                {| sends := sends c1; writes := S (writes c1) |}) as (s & evs & c' & E3).
    rewrite E3. by do 3 eexists.
Qed.

Lemma due_rows_eq cfg w headers rows cols :
  sheet w = inr (headers :: rows) -> resolve_columns headers = Some cols ->
  due_rows cfg w = p_row <$> preview_rows (SEND_MODE cfg) (now w) cols 0 rows.
Proof. intros Hs Hr. unfold due_rows. by rewrite Hs, Hr. Qed.

(** The answer of a pass that went through, and its log. *)
Lemma send_pending_sent cfg w t m sent n :
  (send_pending cfg w).1 = SentBody t m sent n ->
  exists headers rows cols,
    DEST_NUMBERS cfg <> [] /\ sheet w = inr (headers :: rows) /\
    resolve_columns headers = Some cols /\ headers <> [] /\
    t = format_YYYYMMDD (now w) /\ m = SEND_MODE cfg /\ n = length sent /\
    sent = sent_of <$> preview_rows (SEND_MODE cfg) (now w) cols 0 rows /\
    written_rows (send_pending cfg w).2 = due_rows cfg w /\
    length (send_pending cfg w).2 = (n * (length (DEST_NUMBERS cfg) + 1))%nat.
Proof.
  intros E.
  destruct (decide (DEST_NUMBERS cfg = [])) as [Hd|Hd];
    [by rewrite send_pending_no_dest in E|].
  destruct (sheet w) as [e|[|headers rows]] eqn:Hs.
  - unfold send_pending, send_pending_body, handle, readRows in E.
    destruct (DEST_NUMBERS cfg); [done|]. by rewrite Hs in E.
  - by rewrite (send_pending_unresolved cfg w [] []) in E; [|done|left].
  - destruct (resolve_columns headers) as [cols|] eqn:Hr;
      [|by rewrite (send_pending_unresolved cfg w headers rows) in E; [|done|right]].
    exists headers, rows, cols.
    assert (headers <> []) as Hne by (intros ->; done).
    destruct (send_rows_trace cfg w (now w) cols rows 0%nat [] {| sends := 0; writes := 0 |})
      as (res & evs & c' & Er & Ht).
    rewrite (send_pending_loop cfg w headers rows cols Hd Hs Hr), Er in *.
    destruct res as [s|e]; [|done]. simpl in E. injection E as <- <- <- <-.
    apply send_rows_ok in Er as [-> Hl]. simpl in *.
    apply loop_trace_written in Ht as [_ Hw].
    rewrite length_fmap. rewrite (due_rows_eq cfg w headers rows cols Hs Hr).
    split_and!; try done. by apply Hw.
Qed.

End Done.

Section Pass_handlers.
Context `{JsEngine}.

Lemma loop_trace_done_no_failed_write cfg today cols idx rows evs res :
  loop_trace cfg today cols idx rows evs res -> res = None ->
  forall r c v e0, EWrite r c v (Some e0) ∉ evs.
Proof.
  induction 1 as [idx|idx row rest evs res Hd Ht IH|idx row rest fecha evs res Hd Ht IH
                 |idx row rest fecha pre num post o Hd Hdest Ho|idx row rest fecha e1 Hd];
    intros Hres r c v e0 He; try done.
  - by apply elem_of_nil in He.
  - by eapply IH.
  - apply elem_of_app in He as [He|He]; [by apply sends_ok_elem in He as [? ?]|].
    apply elem_of_cons in He as [?|He]; [done|by eapply IH].
Qed.

(** X17. Every gateway call of [/send_pending] is made for a data row
    that is due: a send goes to an address of DEST_NUMBERS and carries
    the reminder text of that row; a write puts the sent marker into the
    "enviado" column of that row, a column of the header row.  No call
    is for the header row. *)
Theorem pass_calls cfg w e :
  e ∈ (send_pending cfg w).2 ->
  exists headers rows cols i row fecha,
    sheet w = inr (headers :: rows) /\ resolve_columns headers = Some cols /\
    rows !! i = Some row /\ due_fecha (SEND_MODE cfg) (now w) cols row = Some fecha /\
    event_row e = (i + 2)%nat /\ call_of_row cfg cols row fecha e /\
    (iEnviado cols + 1 <= length headers)%nat.
Proof.
  intros He.
  destruct (send_pending_cases cfg w) as [E|(headers & rows & cols & res & _ & Hs & Hr & Ht & _)].
  - rewrite E in He. by apply elem_of_nil in He.
  - destruct (loop_trace_calls _ _ _ _ _ _ _ Ht e He) as (i & row & fecha & Hi & Hd & Hrow & Hc).
    exists headers, rows, cols, i, row, fecha. split_and!; try done.
    apply iEnviado_in_headers in Hr. lia.
Qed.

(** X18. The rows a pass marks are an initial segment of the due rows in
    the order of the sheet; the due rows are strictly increasing and lie
    between row 2 and the last row of the sheet, so a pass marks no row
    twice. *)
Theorem marks_follow_due_order cfg w :
  written_rows (send_pending cfg w).2 `prefix_of` due_rows cfg w /\
  StronglySorted lt (due_rows cfg w) /\
  (forall r, r ∈ due_rows cfg w ->
     exists values, sheet w = inr values /\ (2 <= r <= length values)%nat).
Proof.
  split_and!.
  - destruct (send_pending_cases cfg w)
      as [E|(headers & rows & cols & res & _ & Hs & Hr & Ht & _)].
    + rewrite E. apply prefix_nil.
    + rewrite (due_rows_eq cfg w headers rows cols Hs Hr).
      by apply loop_trace_written in Ht as [Hp _].
  - unfold due_rows. destruct (sheet w) as [|[|headers rows]]; try constructor.
    destruct (resolve_columns headers); [apply preview_rows_sorted|constructor].
  - intros r. unfold due_rows.
    destruct (sheet w) as [|[|headers rows]]; try by intros ?%elem_of_nil.
    destruct (resolve_columns headers); [|by intros ?%elem_of_nil].
    intros Hin. exists (headers :: rows). split; [done|].
    pose proof (preview_rows_bounds (SEND_MODE cfg) (now w) c rows 0) as Hb.
    rewrite Forall_forall in Hb. apply Hb in Hin. simpl. lia.
Qed.

(** X19. When [/send_pending] answers with a sent list, the list is the
    one [/preview] shows on the same world, row by row and name by name;
    [count] is its length, every due row was marked, and the log holds
    one call per address and one write for each of them. *)
Theorem sent_answer_is_preview cfg w t m sent n :
  (send_pending cfg w).1 = SentBody t m sent n ->
  t = format_YYYYMMDD (now w) /\ m = SEND_MODE cfg /\ n = length sent /\
  sent = sent_of <$> to_send_of (preview cfg w).1 /\
  s_row <$> sent = due_rows cfg w /\
  written_rows (send_pending cfg w).2 = due_rows cfg w /\
  length (send_pending cfg w).2 = (n * (length (DEST_NUMBERS cfg) + 1))%nat.
Proof.
  intros E. apply send_pending_sent in E
    as (headers & rows & cols & Hd & Hs & Hr & Hne & -> & -> & -> & -> & Hw & Hl).
  split_and!; try done.
  - rewrite preview_eq, Hs. destruct headers; [done|]. simpl. by rewrite Hr.
  - rewrite (due_rows_eq cfg w _ rows cols Hs Hr). rewrite <- list_fmap_compose.
    by apply list_fmap_ext.
Qed.

(** X20. With an address configured, headers that resolve, a channel
    that delivers every text and a store that takes every write,
    [/send_pending] answers the whole due list as sent: every due row is
    sent and marked, and no call of the log failed. *)
Theorem all_delivered_all_marked cfg w headers rows cols :
  DEST_NUMBERS cfg <> [] ->
  sheet w = inr (headers :: rows) -> resolve_columns headers = Some cols ->
  (forall k, channel w k = Delivered) -> (forall k, store_write w k = None) ->
  let pend := preview_rows (SEND_MODE cfg) (now w) cols 0 rows in
  (send_pending cfg w).1 =
    SentBody (format_YYYYMMDD (now w)) (SEND_MODE cfg) (sent_of <$> pend) (length pend) /\
  written_rows (send_pending cfg w).2 = p_row <$> pend /\
  (forall e, e ∈ (send_pending cfg w).2 ->
     match e with ESend _ _ _ o => o = Delivered | EWrite _ _ _ err => err = None end).
Proof.
  intros Hd Hs Hr Hch Hst pend.
  destruct (send_rows_delivered cfg w (now w) cols rows Hch Hst 0%nat []
              {| sends := 0; writes := 0 |}) as (s & evs & c' & E).
  assert ((send_pending cfg w).1 = SentBody (format_YYYYMMDD (now w)) (SEND_MODE cfg) s (length s))
    as Hresp by (by rewrite (send_pending_loop cfg w headers rows cols Hd Hs Hr), E).
  pose proof (send_pending_sent cfg w _ _ _ _ Hresp)
    as (headers' & rows' & cols' & _ & Hs' & Hr' & _ & _ & _ & _ & Hsent & Hw & _).
  rewrite Hs in Hs'. injection Hs' as <- <-. rewrite Hr in Hr'. injection Hr' as <-.
  split_and!.
  - rewrite Hresp, Hsent. by rewrite length_fmap.
  - by rewrite Hw, (due_rows_eq cfg w headers rows cols Hs Hr).
  - intros e He. destruct (send_pending_cases cfg w)
      as [E0|(? & ? & ? & res & _ & _ & _ & Ht & Hres)];
      [rewrite E0 in He; by apply elem_of_nil in He|].
    destruct res as [err|]; [by rewrite Hresp in Hres|].
    destruct e as [r to text o|r c v err]; [|destruct err as [e0|]; [|done]].
    + assert (o <> Delivered -> False) as Hno.
      { intros Ho. apply list_elem_of_split in He as (pre & post & Hev).
        by destruct (loop_trace_failed_send_last _ _ _ _ _ _ _ Ht _ _ _ _ _ _ Hev Ho). }
      destruct o; [done|by destruct Hno|by destruct Hno].
    + by destruct (loop_trace_done_no_failed_write _ _ _ _ _ _ _ Ht eq_refl r c v e0).
Qed.

End Pass_handlers.

(** *** The sheet after a pass *)

Lemma pad_to_id {A} n (x : A) l : (n <= length l)%nat -> pad_to n x l = l.
Proof.
  intros Hn. unfold pad_to. replace (n - length l)%nat with 0%nat by lia.
  apply app_nil_r.
Qed.

Lemma pad_to_length {A} n (x : A) l : (n <= length (pad_to n x l))%nat.
Proof. unfold pad_to. rewrite length_app, length_replicate. lia. Qed.

Lemma set_cell_length vals r c v :
  (1 <= r <= length vals)%nat -> length (set_cell vals r c v) = length vals.
Proof. intros Hr. unfold set_cell. by rewrite length_insert, pad_to_id by lia. Qed.

Lemma set_cell_same vals r c v :
  (1 <= r)%nat -> (1 <= c)%nat ->
  exists row', set_cell vals r c v !! (r - 1)%nat = Some row' /\ row' !! (c - 1)%nat = Some v.
Proof.
  intros Hr Hc. unfold set_cell. eexists. split.
  - apply list_lookup_insert_eq. pose proof (pad_to_length r [] vals). lia.
  - apply list_lookup_insert_eq.
    pose proof (pad_to_length c EmptyString (default [] (vals !! (r - 1)%nat))). lia.
Qed.

Lemma set_cell_other vals r c v i :
  i <> (r - 1)%nat -> (1 <= r <= length vals)%nat -> set_cell vals r c v !! i = vals !! i.
Proof.
  intros Hi Hr. unfold set_cell. rewrite list_lookup_insert_ne by done.
  by rewrite pad_to_id by lia.
Qed.

Lemma store_after_snoc vals evs e :
  store_after vals (evs ++ [e]) =
  match e with
  | EWrite r c v None => set_cell (store_after vals evs) r c v
  | _ => store_after vals evs
  end.
Proof. unfold store_after. by rewrite foldl_snoc. Qed.

Lemma written_rows_elem evs r :
  r ∈ written_rows evs <-> exists c v, EWrite r c v None ∈ evs.
Proof.
  unfold written_rows. rewrite list_elem_of_omap. split.
  - intros ([r' to text o|r' c v [e|]] & He & Hr); try done.
    injection Hr as ->. by exists c, v.
  - intros (c & v & He). by exists (EWrite r c v None).
Qed.

Lemma store_after_marks ce vals evs :
  Forall (marks ce (length vals)) evs ->
  length (store_after vals evs) = length vals /\
  (forall i, (forall r, r ∈ written_rows evs -> r <> S i) ->
             store_after vals evs !! i = vals !! i) /\
  (forall r, r ∈ written_rows evs ->
             exists row', store_after vals evs !! (r - 1)%nat = Some row' /\
                          row' !! ce = Some si).
Proof.
  induction evs as [|e evs IH] using rev_ind; intros Hall.
  - split_and!; [done|done|]. by intros r ?%elem_of_nil.
  - apply Forall_app in Hall as [Hall He%Forall_inv].
    destruct (IH Hall) as (Hl & Hu & Hm). clear IH.
    rewrite store_after_snoc, written_rows_app.
    destruct e as [r to text o|r c v [e0|]]; simpl; rewrite ?app_nil_r; try done.
    destruct He as (-> & -> & Hr). split_and!.
    + rewrite set_cell_length; [done|lia].
    + intros i Hi. rewrite set_cell_other; [|..|lia].
      * apply Hu. intros r' Hr'. apply Hi, elem_of_app. by left.
      * intros ->. apply (Hi r); [|lia]. apply elem_of_app. right. by left.
    + intros r' Hr'. destruct (decide (r' - 1 = r - 1)%nat) as [E|E].
      * rewrite E. destruct (set_cell_same (store_after vals evs) r (ce + 1) si)
          as (row' & E1 & E2); [lia|lia|].
        exists row'. split; [done|]. by replace (ce + 1 - 1)%nat with ce in E2 by lia.
      * rewrite set_cell_other; [|done|lia].
        apply Hm. apply elem_of_app in Hr' as [|Hr']; [done|].
        apply list_elem_of_singleton in Hr' as ->. done.
Qed.

Section Marked.
Context `{JsEngine}.

Lemma due_fecha_marked mode today cols row :
  row !! iEnviado cols = Some si -> due_fecha mode today cols row = None.
Proof.
  intros E. unfold due_fecha, enviado_of. rewrite E.
  by destruct (fecha_of cols row).
Qed.

Lemma preview_rows_elem mode today cols rows :
  forall idx r,
  r ∈ p_row <$> preview_rows mode today cols idx rows <->
  exists i row, rows !! i = Some row /\ r = (idx + i + 2)%nat /\
                due_fecha mode today cols row <> None.
Proof.
  intros idx r. split.
  - intros (p & -> & Hp)%list_elem_of_fmap. by apply preview_rows_rows in Hp.
  - intros (i & row & Hi & -> & Hd). revert idx i Hi.
    induction rows as [|row0 rest IH]; intros idx i Hi; [done|].
    simpl. destruct i as [|i]; simpl in Hi.
    + injection Hi as ->. destruct (due_fecha mode today cols row); [|done].
      simpl. replace (idx + 0 + 2)%nat with (idx + 2)%nat by lia. left.
    + replace (idx + S i + 2)%nat with (S idx + i + 2)%nat by lia.
      destruct (due_fecha mode today cols row0); [right|]; by apply IH.
Qed.

End Marked.

Section Next_pass.
Context `{JsEngine}.

(** What the log of a pass leaves in the sheet it was read from. *)
Lemma pass_store cfg w headers rows cols :
  sheet w = inr (headers :: rows) -> resolve_columns headers = Some cols ->
  exists rows',
    store_after (headers :: rows) (send_pending cfg w).2 = headers :: rows' /\
    (forall i, S (S i) ∉ written_rows (send_pending cfg w).2 -> rows' !! i = rows !! i) /\
    (forall r, r ∈ written_rows (send_pending cfg w).2 ->
       (2 <= r)%nat /\
       exists row', rows' !! (r - 2)%nat = Some row' /\ row' !! iEnviado cols = Some si).
Proof.
  intros Hs Hr.
  assert (Forall (marks (iEnviado cols) (length (headers :: rows))) (send_pending cfg w).2)
    as Hall.
  { apply Forall_forall. intros e He.
    destruct (send_pending_cases cfg w)
      as [E|(headers' & rows' & cols' & res & _ & Hs' & Hr' & Ht & _)];
      [rewrite E in He; by apply elem_of_nil in He|].
    rewrite Hs in Hs'. injection Hs' as <- <-. rewrite Hr in Hr'. injection Hr' as <-.
    destruct (loop_trace_calls _ _ _ _ _ _ _ Ht e He) as (i & row & f & Hi & _ & Hrow & Hc).
    apply lookup_lt_Some in Hi.
    destruct e as [|r c v err]; [done|]. simpl in *. destruct Hc as [-> ->].
    split_and!; [done|done|lia|lia]. }
  destruct (store_after_marks _ _ _ Hall) as (Hl & Hu & Hm).
  assert (forall r, r ∈ written_rows (send_pending cfg w).2 -> (2 <= r)%nat) as Hge.
  { intros r (c & v & He)%written_rows_elem. rewrite Forall_forall in Hall.
    apply Hall in He. simpl in He. lia. }
  destruct (store_after (headers :: rows) (send_pending cfg w).2) as [|h rows'] eqn:Est;
    [done|].
  assert (h = headers) as ->.
  { specialize (Hu 0%nat). simpl in Hu. injection Hu as ->; [done|].
    intros r Hin%Hge. lia. }
  exists rows'. split_and!; [done|..].
  - intros i Hi. apply (Hu (S i)). intros r Hin ->. done.
  - intros r Hin. pose proof (Hge r Hin). split; [done|].
    destruct (Hm r Hin) as (row' & E1 & E2). exists row'. split; [|done].
    replace (r - 1)%nat with (S (r - 2)) in E1 by lia. done.
Qed.

(** X21. Let the store keep what [updateCell] writes (the cell at that
    1-based row and column takes the value).  Then a row marked by a pass
    is due in no later pass, whatever its mode and time; and at the same
    mode and time the due rows of the next pass are the due rows of this
    one without the rows it marked. *)
Theorem second_pass cfg cfg' w w' values :
  sheet w = inr values ->
  sheet w' = inr (store_after values (send_pending cfg w).2) ->
  (forall r, r ∈ written_rows (send_pending cfg w).2 -> r ∉ due_rows cfg' w') /\
  (now w' = now w ->
   forall r, r ∈ due_rows cfg w' <->
             r ∈ due_rows cfg w /\ r ∉ written_rows (send_pending cfg w).2).
Proof.
  intros Hs Hs'.
  destruct (send_pending_cases cfg w)
    as [E|(headers & rows & cols & res & _ & Hv & Hr & _)].
  { rewrite E in *. simpl in Hs'. split; [by intros r ?%elem_of_nil|].
    intros Hn r. unfold due_rows. rewrite Hs, Hs', Hn. split; [|by intros [? _]].
    intros Hin. split; [done|]. by intros ?%elem_of_nil. }
  rewrite Hs in Hv. injection Hv as ->.
  destruct (pass_store cfg w headers rows cols Hs Hr) as (rows' & Est & Hu & Hm).
  rewrite Est in Hs'.
  assert (forall c r, r ∈ written_rows (send_pending cfg w).2 -> r ∉ due_rows c w') as Hnot.
  { intros c r Hin. rewrite (due_rows_eq c w' headers rows' cols Hs' Hr).
    intros (i & row & Hi & -> & Hd)%preview_rows_elem.
    destruct (Hm _ Hin) as (_ & row' & E1 & E2).
    replace (0 + i + 2 - 2)%nat with i in E1 by lia.
    rewrite Hi in E1. injection E1 as ->. by apply Hd, due_fecha_marked. }
  split; [apply Hnot|].
  intros Hn r. split.
  - intros Hin. assert (r ∉ written_rows (send_pending cfg w).2) as Hw
      by (intros Hw; by apply (Hnot cfg r Hw)).
    split; [|done].
    rewrite (due_rows_eq cfg w' headers rows' cols Hs' Hr) in Hin.
    rewrite (due_rows_eq cfg w headers rows cols Hs Hr).
    apply preview_rows_elem in Hin as (i & row & Hi & -> & Hd).
    apply preview_rows_elem. exists i, row. rewrite <- Hn. split_and!; [|done|done].
    rewrite <- Hu; [done|]. by replace (S (S i)) with (0 + i + 2)%nat by lia.
  - intros [Hin Hw].
    rewrite (due_rows_eq cfg w headers rows cols Hs Hr) in Hin.
    rewrite (due_rows_eq cfg w' headers rows' cols Hs' Hr).
    apply preview_rows_elem in Hin as (i & row & Hi & -> & Hd).
    apply preview_rows_elem. exists i, row. rewrite Hn. split_and!; [|done|done].
    rewrite Hu; [done|]. by replace (S (S i)) with (0 + i + 2)%nat by lia.
Qed.

End Next_pass.

(** *** The theorems above on the scenarios *)

Lemma day_overflow_rolls_witness :
  @parseDDMMYY plain_engine (Some "31/04/2025") = Some (newDate 2025 4 1) /\
  calendar (newDate 2025 4 1) = (2025, 5, 1).
Proof.
  split; [|vm_compute; reflexivity].
  assert (day_month_field "31") as H1 by (split; [reflexivity|simpl; lia]).
  assert (day_month_field "04") as H2 by (split; [reflexivity|simpl; lia]).
  assert (year_field "2025") as H3
    by (split; [reflexivity|right; split; [reflexivity|vm_compute; discriminate]]).
  exact (proj1 (@day_overflow_rolls plain_engine "31" "04" "2025" H1 H2 H3)).
Defined.

Lemma missing_day_is_first_witness :
  @parseDDMMYY plain_engine (Some "/6/2025") = Some (newDate 2025 5 1) /\
  @Part000.parseDDMMYY plain_engine (Some "/6/2025") = None.
Proof.
  assert (day_month_field "6") as H2 by (split; [reflexivity|simpl; lia]).
  assert (year_field "2025") as H3
    by (split; [reflexivity|right; split; [reflexivity|vm_compute; discriminate]]).
  exact (@missing_day_is_first plain_engine "6" "2025" H2 H3).
Defined.

Lemma format_parse_round_trip_witness :
  format_DDMMYYYY june_1 = "01/06/2025"%string /\
  @parseDDMMYY plain_engine (Some (format_DDMMYYYY june_1)) = Some (startOfDay june_1).
Proof.
  split; [vm_compute; reflexivity|].
  apply (@format_parse_round_trip plain_engine june_1).
  vm_compute. split; discriminate.
Defined.

Lemma resolved_columns_witness :
  last_column headers_A "enviado" 3 /\
  NoDup [0; 1; 2; 3]%nat.
Proof.
  pose proof (resolved_columns headers_A
                {| iNombre := 0; iCargo := 1; iFecha := 2; iEnviado := 3 |}
                ltac:(vm_compute; reflexivity)) as (_ & _ & He & _ & Hn & _).
  exact (conj He Hn).
Defined.

Lemma pass_calls_witness :
  exists headers rows cols,
    sheet (world_of sheet_A (λ _, Delivered)) = inr (headers :: rows) /\
    resolve_columns headers = Some cols /\ (iEnviado cols + 1 <= length headers)%nat.
Proof.
  destruct (@pass_calls plain_engine one_dest (world_of sheet_A (λ _, Delivered))
              (EWrite 2 4 si None))
    as (headers & rows & cols & i & row & fecha & Hs & Hr & _ & _ & _ & _ & Hb).
  - vm_compute. right. left.
  - exists headers, rows, cols. exact (conj Hs (conj Hr Hb)).
Defined.

Lemma sent_answer_is_preview_witness :
  [{| s_row := 2; s_Nombre := "Ana" |}] =
  sent_of <$> to_send_of (@preview plain_engine one_dest (world_of sheet_A (λ _, Delivered))).1.
Proof.
  assert ((@send_pending plain_engine one_dest (world_of sheet_A (λ _, Delivered))).1 =
          SentBody "2025-06-01" "today" [{| s_row := 2; s_Nombre := "Ana" |}] 1) as E
    by (vm_compute; reflexivity).
  exact (proj1 (proj2 (proj2 (proj2
    (@sent_answer_is_preview plain_engine one_dest (world_of sheet_A (λ _, Delivered))
       _ _ _ _ E))))).
Defined.

Lemma all_delivered_all_marked_witness :
  written_rows (@send_pending plain_engine two_dests (world_of sheet_two (λ _, Delivered))).2 =
  [2; 3]%nat.
Proof.
  pose proof (@all_delivered_all_marked plain_engine two_dests
                (world_of sheet_two (λ _, Delivered)) headers_A
                [["Ana"; "Jefa"; "01/06/25"; "no"]; ["Luis"; "Jefe"; "1/6/2025"; ""]]%string
                {| iNombre := 0; iCargo := 1; iFecha := 2; iEnviado := 3 |}
                ltac:(discriminate) eq_refl ltac:(vm_compute; reflexivity)
                ltac:(reflexivity) ltac:(reflexivity)) as (_ & Hw & _).
  rewrite Hw. vm_compute. reflexivity.
Defined.

Lemma second_pass_witness :
  2%nat ∉ @due_rows plain_engine one_dest
            (world_of (store_after sheet_A
                         (@send_pending plain_engine one_dest
                            (world_of sheet_A (λ _, Delivered))).2)
               (λ _, Delivered)).
Proof.
  apply (proj1 (@second_pass plain_engine one_dest one_dest
                  (world_of sheet_A (λ _, Delivered))
                  (world_of (store_after sheet_A
                               (@send_pending plain_engine one_dest
                                  (world_of sheet_A (λ _, Delivered))).2)
                     (λ _, Delivered))
                  sheet_A eq_refl eq_refl) 2%nat).
  vm_compute. left.
Defined.
